(** * Voltas A/C infrared protocol: the 10-byte state codec of ir_Voltas.cpp

    A shallow embedding of [IRVoltas] (src/src/ir_Voltas.cpp, ir_Voltas.h) and
    of [IRrecv::decodeVoltas], with the properties the specification states
    about them.

    Conventions.
    - A [uint8_t] is a [Z] in [0, 256); arithmetic that C performs in [int]
      and then stores into a [uint8_t] is written with [uint8], an n-bit
      bit-field store with [Z.land _ (Z.ones n)].
    - A buffer [const uint8_t state[]] is a [list Z]; the caller has to supply
      as many bytes as the [length] argument announces (reading past the end
      is undefined in C), so the theorems about arbitrary buffers assume it.
    - [union VoltasProtocol] overlays [raw[10]] with a struct of bit-fields.
      The bit-fields of a byte are allocated from its least significant bit
      upwards, in declaration order; every accessor below is a shift and a
      mask on the byte the field lives in. *)

From Stdlib Require Import ZArith List Lia Bool String.
From stdpp Require Import base list.
From Equations Require Import Equations.
From Equations.Prop Require Import Logic.

Local Open Scope Z_scope.

(** ** Machine integers *)

Definition uint8 (z : Z) : Z := z mod 256.
Definition uint16 (z : Z) : Z := z mod 65536.

(** [buf[i]] *)
Definition byte_at (buf : list Z) (i : nat) : Z := nth i buf 0.

(** Every element is a [uint8_t]. *)
Definition bytes (buf : list Z) : Prop := Forall (fun b => 0 <= b < 256) buf.

(** ** Constants of the protocol *)

(** Modelled from the spec: [kVoltasStateLength] and [kVoltasBits] are declared
    in IRremoteESP8266.h, which is not part of the sources; the state is
    "exactly 10 bytes" and a message has "exactly 80" bits. *)
Definition kVoltasStateLength : Z := 10.
Definition kVoltasBits : Z := 80.

(** The remaining constants ([kVoltasMinTemp], the mode and fan speed codes)
    are used by ir_Voltas.cpp but declared nowhere in the sources, and the
    specification gives no values for them: they are parameters of the
    development. *)
Class VoltasConstants : Type := {
  kVoltasMinTemp : Z;
  kVoltasMaxTemp : Z;
  kVoltasFan : Z;
  kVoltasHeat : Z;
  kVoltasDry : Z;
  kVoltasCool : Z;
  kVoltasFanLow : Z;
  kVoltasFanMed : Z;
  kVoltasFanHigh : Z;
  kVoltasFanAuto : Z
}.

(** ** Checksum *)

(** Modelled from the spec: [sumBytes] (IRutils.cpp) is not part of the
    sources; [calcChecksum] uses it for "the 8-bit unsigned sum of
    buffer[0..length-2] ... modulo 256", that is, a [uint8_t] accumulator
    that starts at [init] and adds the first [length] bytes of [start]. *)
Definition sumBytes (start : list Z) (length : Z) (init : Z) : Z :=
  fold_left (fun checksum b => uint8 (checksum + b))
            (take (Z.to_nat length) start) init.

(** [IRVoltas::calcChecksum], ir_Voltas.cpp:139-144. *)
Definition calcChecksum (state : list Z) (length : Z) : Z :=
  let result := 0 in
  let result := if length =? 0 then result else sumBytes state (length - 1) 0 in
  uint8 (Z.lnot result).

(** [IRVoltas::validChecksum], ir_Voltas.cpp:130-133. *)
Definition validChecksum (state : list Z) (length : Z) : bool :=
  if length =? 0 then true
  else byte_at state (Z.to_nat (length - 1)) =? calcChecksum state length.

(** The buffer of the documentation of [sendVoltas], ir_Voltas.cpp:34-35. *)
Definition fixture : list Z :=
  [0x33; 0x28; 0x88; 0x1A; 0x3B; 0x3B; 0x3B; 0x11; 0x00; 0x40].

(** ** The state: [union VoltasProtocol], ir_Voltas.h:28-70 *)

(** A bit-field: the byte of [raw] it lives in, the position of its least
    significant bit in that byte, and its width. *)
Record bitfield : Type := {
  bf_byte : nat;
  bf_lsb : Z;
  bf_width : Z
}.

(** The declaration of the struct, in order: name and width of each
    bit-field; the unnamed ones carry the empty name. *)
Definition VoltasProtocol_decl : list (string * Z) :=
  [ (* Byte 0 *) ("SwingH", 1); ("Unknown0", 7);
    (* Byte 1 *) ("Mode", 4); ("", 1); ("FanSpeed", 3);
    (* Byte 2 *) ("SwingV", 3); ("Wifi", 1); ("", 1); ("Turbo", 1);
                 ("Sleep", 1); ("Power", 1);
    (* Byte 3 *) ("Temp", 4); ("Unknown3", 2); ("Econo", 1); ("TempSet", 1);
    (* Byte 4 *) ("OffTimer24h4", 1); ("", 7);
    (* Byte 5 *) ("OffTimer24h5", 1); ("", 6); ("TimerAdd12Hr", 1);
    (* Byte 6 *) ("", 8);
    (* Byte 7 *) ("", 4); ("TimerHrs", 4);
    (* Byte 8 *) ("", 5); ("Light", 1); ("OffTimerEnable", 1); ("", 1);
    (* Byte 9 *) ("Checksum", 8) ]%string.

(** Allocation of the bit-fields: consecutive bits, least significant first. *)
Fixpoint allocate (pos : Z) (decl : list (string * Z)) : list (string * bitfield) :=
  match decl with
  | [] => []
  | (name, width) :: rest =>
      (name, {| bf_byte := Z.to_nat (pos / 8); bf_lsb := pos mod 8;
                bf_width := width |}) :: allocate (pos + width) rest
  end.

Definition field_of (name : string) : bitfield :=
  match List.find (fun nf => String.eqb (fst nf) name)
                  (allocate 0 VoltasProtocol_decl) with
  | Some nf => snd nf
  | None => {| bf_byte := 0; bf_lsb := 0; bf_width := 0 |}
  end.

Definition Mode : bitfield := Eval cbv in field_of "Mode".
Definition FanSpeed : bitfield := Eval cbv in field_of "FanSpeed".
Definition Wifi : bitfield := Eval cbv in field_of "Wifi".
Definition Turbo : bitfield := Eval cbv in field_of "Turbo".
Definition Power : bitfield := Eval cbv in field_of "Power".
Definition Temp : bitfield := Eval cbv in field_of "Temp".
Definition Econo : bitfield := Eval cbv in field_of "Econo".
Definition Light : bitfield := Eval cbv in field_of "Light".
Definition Checksum : bitfield := Eval cbv in field_of "Checksum".

(** The bit mask of a field inside its byte. *)
Definition mask (f : bitfield) : Z := Z.shiftl (Z.ones (bf_width f)) (bf_lsb f).

(** Reading the bit-field [f] of the state [s]. *)
Definition get_field (f : bitfield) (s : list Z) : Z :=
  Z.land (Z.shiftr (byte_at s (bf_byte f)) (bf_lsb f)) (Z.ones (bf_width f)).

(** [_.f = v]: the value is truncated to the width of the field, the other
    bits of the byte are kept. *)
Definition set_field (f : bitfield) (v : Z) (s : list Z) : list Z :=
  <[bf_byte f := Z.lor (Z.ldiff (byte_at s (bf_byte f)) (mask f))
                       (Z.shiftl (Z.land v (Z.ones (bf_width f))) (bf_lsb f))]> s.

(** Bit [j] of byte [i] belongs to the field [f]. *)
Definition in_field (f : bitfield) (i : nat) (j : Z) : Prop :=
  i = bf_byte f /\ bf_lsb f <= j < bf_lsb f + bf_width f.

(** Bit [j] of byte [i] of the state. *)
Definition state_bit (s : list Z) (i : nat) (j : Z) : bool :=
  Z.testbit (byte_at s i) j.

(** A state of the class: 10 bytes. *)
Definition well_formed (s : list Z) : Prop :=
  List.length s = Z.to_nat kVoltasStateLength /\ bytes s.

(** ** The class [IRVoltas], ir_Voltas.cpp:92-301 *)

(** [IRVoltas::stateReset]: [memset(_.raw, 0, sizeof _.raw)]. *)
Definition stateReset : list Z := replicate (Z.to_nat kVoltasStateLength) 0.

(** [IRVoltas::setRaw]: [memcpy(_.raw, new_code, kVoltasStateLength)]; the
    caller supplies at least 10 bytes. *)
Definition setRaw (new_code : list Z) : list Z :=
  take (Z.to_nat kVoltasStateLength) new_code.

(** [IRVoltas::checksum], ir_Voltas.cpp:122-124. *)
Definition checksum (s : list Z) : list Z :=
  set_field Checksum (calcChecksum s (kVoltasStateLength - 1)) s.

(** [IRVoltas::getRaw], ir_Voltas.cpp:110-113: the state after the call,
    which is also the buffer the returned pointer designates. *)
Definition getRaw (s : list Z) : list Z := checksum s.

(** The boolean accessors, ir_Voltas.cpp:154-158 and 240-268: [_.f = on] and
    [return _.f] on a 1-bit field. *)
Definition setPower (on : bool) (s : list Z) : list Z := set_field Power (Z.b2z on) s.
Definition getPower (s : list Z) : bool := negb (get_field Power s =? 0).
Definition setWifi (on : bool) (s : list Z) : list Z := set_field Wifi (Z.b2z on) s.
Definition getWifi (s : list Z) : bool := negb (get_field Wifi s =? 0).
Definition setTurbo (on : bool) (s : list Z) : list Z := set_field Turbo (Z.b2z on) s.
Definition getTurbo (s : list Z) : bool := negb (get_field Turbo s =? 0).
Definition setEcono (on : bool) (s : list Z) : list Z := set_field Econo (Z.b2z on) s.
Definition getEcono (s : list Z) : bool := negb (get_field Econo s =? 0).
Definition setLight (on : bool) (s : list Z) : list Z := set_field Light (Z.b2z on) s.
Definition getLight (s : list Z) : bool := negb (get_field Light s =? 0).

(** [IRVoltas::getMode] and [IRVoltas::getFan], ir_Voltas.cpp:179 and 232. *)
Definition getMode (s : list Z) : Z := get_field Mode s.
Definition getFan (s : list Z) : Z := get_field FanSpeed s.

(** Modelled from the spec: [stdAc::fanspeed_t] is declared in IRsend.h, which
    is not part of the sources: "an abstract 5-level speed enum
    {Min, Low, Medium, High, Max, Auto}". *)
Inductive fanspeed_t : Type := kAuto | kMin | kLow | kMedium | kHigh | kMax.

(** Modelled from the spec: [decode_type_t] is declared in
    IRremoteESP8266.h, which is not part of the sources. Only the enumerator
    ir_Voltas.cpp names is listed; any other protocol is kept by its numeric
    code. *)
Inductive decode_type_t : Type := VOLTAS | decode_type_other (code : Z).

(** Modelled from the spec: [stdAc::opmode_t] (IRsend.h, not part of the
    sources), the "operating-mode mapping" of the summary; ir_Voltas.cpp names
    none of its enumerators outside comments. *)
Inductive opmode_t : Type := opmode_code (code : Z).

(** Modelled from the spec: [stdAc::swingv_t] (IRsend.h), the "vertical
    swing" of the summary; no enumerator is named outside comments. *)
Inductive swingv_t : Type := swingv_code (code : Z).

(** Modelled from the spec: [stdAc::swingh_t] (IRsend.h), the "horizontal
    swing" of the summary; ir_Voltas.cpp names [kOff]. *)
Inductive swingh_t : Type := swingh_kOff | swingh_other (code : Z).

(** Modelled from the spec: [stdAc::state_t], the summary [toCommon] returns.
    [toCommon] declares [stdAc::state_t result;] and assigns fields one by
    one: a field holds [Some v] once [v] has been assigned to it and [None]
    as long as the function has not written it. [degrees] is a [float] in
    the library; it only ever receives the [uint8_t] of [getTemp], kept here
    as the integer it is. *)
Record state_t : Type := {
  protocol : option decode_type_t;
  model : option Z;
  power : option bool;
  mode : option opmode_t;
  degrees : option Z;
  celsius : option bool;
  fanspeed : option fanspeed_t;
  swingv : option swingv_t;
  swingh : option swingh_t;
  quiet : option bool;
  turbo : option bool;
  econo : option bool;
  light : option bool;
  filter : option bool;
  clean : option bool;
  beep : option bool;
  sleep : option Z;
  clock : option Z
}.

(** [stdAc::state_t result;] before any assignment. *)
Definition state_t_declared : state_t :=
  {| protocol := None; model := None; power := None; mode := None;
     degrees := None; celsius := None; fanspeed := None; swingv := None;
     swingh := None; quiet := None; turbo := None; econo := None;
     light := None; filter := None; clean := None; beep := None;
     sleep := None; clock := None |}.

(** [result.f = v], for each field [f] that [toCommon] assigns. *)
Definition assign_protocol (v : decode_type_t) (r : state_t) : state_t :=
  {| protocol := Some v; model := model r; power := power r;
     mode := mode r; degrees := degrees r; celsius := celsius r;
     fanspeed := fanspeed r; swingv := swingv r; swingh := swingh r;
     quiet := quiet r; turbo := turbo r; econo := econo r;
     light := light r; filter := filter r; clean := clean r;
     beep := beep r; sleep := sleep r; clock := clock r |}.

Definition assign_power (v : bool) (r : state_t) : state_t :=
  {| protocol := protocol r; model := model r; power := Some v;
     mode := mode r; degrees := degrees r; celsius := celsius r;
     fanspeed := fanspeed r; swingv := swingv r; swingh := swingh r;
     quiet := quiet r; turbo := turbo r; econo := econo r;
     light := light r; filter := filter r; clean := clean r;
     beep := beep r; sleep := sleep r; clock := clock r |}.

Definition assign_celsius (v : bool) (r : state_t) : state_t :=
  {| protocol := protocol r; model := model r; power := power r;
     mode := mode r; degrees := degrees r; celsius := Some v;
     fanspeed := fanspeed r; swingv := swingv r; swingh := swingh r;
     quiet := quiet r; turbo := turbo r; econo := econo r;
     light := light r; filter := filter r; clean := clean r;
     beep := beep r; sleep := sleep r; clock := clock r |}.

Definition assign_degrees (v : Z) (r : state_t) : state_t :=
  {| protocol := protocol r; model := model r; power := power r;
     mode := mode r; degrees := Some v; celsius := celsius r;
     fanspeed := fanspeed r; swingv := swingv r; swingh := swingh r;
     quiet := quiet r; turbo := turbo r; econo := econo r;
     light := light r; filter := filter r; clean := clean r;
     beep := beep r; sleep := sleep r; clock := clock r |}.

Definition assign_fanspeed (v : fanspeed_t) (r : state_t) : state_t :=
  {| protocol := protocol r; model := model r; power := power r;
     mode := mode r; degrees := degrees r; celsius := celsius r;
     fanspeed := Some v; swingv := swingv r; swingh := swingh r;
     quiet := quiet r; turbo := turbo r; econo := econo r;
     light := light r; filter := filter r; clean := clean r;
     beep := beep r; sleep := sleep r; clock := clock r |}.

Definition assign_turbo (v : bool) (r : state_t) : state_t :=
  {| protocol := protocol r; model := model r; power := power r;
     mode := mode r; degrees := degrees r; celsius := celsius r;
     fanspeed := fanspeed r; swingv := swingv r; swingh := swingh r;
     quiet := quiet r; turbo := Some v; econo := econo r;
     light := light r; filter := filter r; clean := clean r;
     beep := beep r; sleep := sleep r; clock := clock r |}.

Definition assign_econo (v : bool) (r : state_t) : state_t :=
  {| protocol := protocol r; model := model r; power := power r;
     mode := mode r; degrees := degrees r; celsius := celsius r;
     fanspeed := fanspeed r; swingv := swingv r; swingh := swingh r;
     quiet := quiet r; turbo := turbo r; econo := Some v;
     light := light r; filter := filter r; clean := clean r;
     beep := beep r; sleep := sleep r; clock := clock r |}.

Definition assign_light (v : bool) (r : state_t) : state_t :=
  {| protocol := protocol r; model := model r; power := power r;
     mode := mode r; degrees := degrees r; celsius := celsius r;
     fanspeed := fanspeed r; swingv := swingv r; swingh := swingh r;
     quiet := quiet r; turbo := turbo r; econo := econo r;
     light := Some v; filter := filter r; clean := clean r;
     beep := beep r; sleep := sleep r; clock := clock r |}.

Definition assign_model (v : Z) (r : state_t) : state_t :=
  {| protocol := protocol r; model := Some v; power := power r;
     mode := mode r; degrees := degrees r; celsius := celsius r;
     fanspeed := fanspeed r; swingv := swingv r; swingh := swingh r;
     quiet := quiet r; turbo := turbo r; econo := econo r;
     light := light r; filter := filter r; clean := clean r;
     beep := beep r; sleep := sleep r; clock := clock r |}.

Definition assign_swingh (v : swingh_t) (r : state_t) : state_t :=
  {| protocol := protocol r; model := model r; power := power r;
     mode := mode r; degrees := degrees r; celsius := celsius r;
     fanspeed := fanspeed r; swingv := swingv r; swingh := Some v;
     quiet := quiet r; turbo := turbo r; econo := econo r;
     light := light r; filter := filter r; clean := clean r;
     beep := beep r; sleep := sleep r; clock := clock r |}.

Definition assign_quiet (v : bool) (r : state_t) : state_t :=
  {| protocol := protocol r; model := model r; power := power r;
     mode := mode r; degrees := degrees r; celsius := celsius r;
     fanspeed := fanspeed r; swingv := swingv r; swingh := swingh r;
     quiet := Some v; turbo := turbo r; econo := econo r;
     light := light r; filter := filter r; clean := clean r;
     beep := beep r; sleep := sleep r; clock := clock r |}.

Definition assign_filter (v : bool) (r : state_t) : state_t :=
  {| protocol := protocol r; model := model r; power := power r;
     mode := mode r; degrees := degrees r; celsius := celsius r;
     fanspeed := fanspeed r; swingv := swingv r; swingh := swingh r;
     quiet := quiet r; turbo := turbo r; econo := econo r;
     light := light r; filter := Some v; clean := clean r; beep := beep r;
     sleep := sleep r; clock := clock r |}.

Definition assign_beep (v : bool) (r : state_t) : state_t :=
  {| protocol := protocol r; model := model r; power := power r;
     mode := mode r; degrees := degrees r; celsius := celsius r;
     fanspeed := fanspeed r; swingv := swingv r; swingh := swingh r;
     quiet := quiet r; turbo := turbo r; econo := econo r;
     light := light r; filter := filter r; clean := clean r;
     beep := Some v; sleep := sleep r; clock := clock r |}.

Definition assign_clock (v : Z) (r : state_t) : state_t :=
  {| protocol := protocol r; model := model r; power := power r;
     mode := mode r; degrees := degrees r; celsius := celsius r;
     fanspeed := fanspeed r; swingv := swingv r; swingh := swingh r;
     quiet := quiet r; turbo := turbo r; econo := econo r;
     light := light r; filter := filter r; clean := clean r;
     beep := beep r; sleep := sleep r; clock := Some v |}.

Section Codec.
Context `{K : VoltasConstants}.

(** The accepted modes: the case labels of the [switch] of [setMode]. *)
Definition mode_codes : list Z := [kVoltasFan; kVoltasHeat; kVoltasDry; kVoltasCool].

(** The accepted fan speeds: the case labels of the [switch] of [setFan]. *)
Definition fan_codes : list Z :=
  [kVoltasFanLow; kVoltasFanMed; kVoltasFanHigh; kVoltasFanAuto].

(** The test the [switch] of [setMode] performs. *)
Definition is_mode (mode : Z) : bool :=
  (mode =? kVoltasFan) || (mode =? kVoltasHeat) || (mode =? kVoltasDry)
  || (mode =? kVoltasCool).

(** [IRVoltas::setMode], ir_Voltas.cpp:163-175. The [default] branch calls
    [setMode(kVoltasCool)], whose argument is one of the case labels. *)
Equations? setMode (mode : Z) (s : list Z) : list Z
  by wf (if is_mode mode then 0%nat else 1%nat) lt :=
  setMode mode s with inspect (is_mode mode) := {
    | exist _ true _ => set_field Mode mode s
    | exist _ false Hdefault => setMode kVoltasCool s }.
Proof.
  rewrite Hdefault. unfold is_mode. rewrite Z.eqb_refl, !orb_true_r. lia.
Qed.

(** [IRVoltas::setTemp], ir_Voltas.cpp:183-187. *)
Definition setTemp (temp : Z) (s : list Z) : list Z :=
  let new_temp := Z.max kVoltasMinTemp temp in
  let new_temp := Z.min kVoltasMaxTemp new_temp in
  set_field Temp (new_temp - kVoltasMinTemp) s.

(** [IRVoltas::getTemp], ir_Voltas.cpp:236. *)
Definition getTemp (s : list Z) : Z := uint8 (get_field Temp s + kVoltasMinTemp).

(** The test the [switch] of [setFan] performs. *)
Definition is_fan (fan : Z) : bool :=
  (fan =? kVoltasFanLow) || (fan =? kVoltasFanMed) || (fan =? kVoltasFanHigh)
  || (fan =? kVoltasFanAuto).

(** [IRVoltas::setFan], ir_Voltas.cpp:191-202. *)
Equations? setFan (fan : Z) (s : list Z) : list Z
  by wf (if is_fan fan then 0%nat else 1%nat) lt :=
  setFan fan s with inspect (is_fan fan) := {
    | exist _ true _ => set_field FanSpeed fan s
    | exist _ false Hdefault => setFan kVoltasFanAuto s }.
Proof.
  rewrite Hdefault. unfold is_fan. rewrite Z.eqb_refl, !orb_true_r. lia.
Qed.

(** [IRVoltas::convertFan], ir_Voltas.cpp:207-216. *)
Definition convertFan (speed : fanspeed_t) : Z :=
  match speed with
  | kMin | kLow => kVoltasFanLow
  | kMedium => kVoltasFanMed
  | kHigh | kMax => kVoltasFanHigh
  | _ => kVoltasFanAuto
  end.

(** [IRVoltas::toCommonFanSpeed], ir_Voltas.cpp:221-228. *)
Definition toCommonFanSpeed (spd : Z) : fanspeed_t :=
  if spd =? kVoltasFanHigh then kMax
  else if spd =? kVoltasFanMed then kMedium
  else if spd =? kVoltasFanLow then kMin
  else kAuto.

(** [IRVoltas::toCommon], ir_Voltas.cpp:272-301: the assignments of the
    body, in order; the ones inside comments are not executed. *)
Definition toCommon (s : list Z) : state_t :=
  let result := state_t_declared in
  let result := assign_protocol VOLTAS result in
  let result := assign_power (getPower s) result in
  (* result.mode = toCommonMode(getMode()); is commented out *)
  let result := assign_celsius true result in
  let result := assign_degrees (getTemp s) result in
  let result := assign_fanspeed (toCommonFanSpeed (getFan s)) result in
  (* the assignments of result.swingv are commented out *)
  let result := assign_turbo (getTurbo s) result in
  let result := assign_econo (getEcono s) result in
  let result := assign_light (getLight s) result in
  (* the assignments of result.clean and result.sleep are commented out *)
  let result := assign_model (-1) result in
  let result := assign_swingh swingh_kOff result in
  let result := assign_quiet false result in
  let result := assign_filter false result in
  let result := assign_beep false result in
  let result := assign_clock (-1) result in
  result.
End Codec.

(** ** Sequences of calls on one object *)

(** The mutators of the class; the constructor leaves the object in the state
    [stateReset]. *)
Inductive method : Type :=
| m_stateReset
| m_setRaw (new_code : list Z)
| m_setPower (on : bool)
| m_setMode (mode : Z)
| m_setTemp (temp : Z)
| m_setFan (fan : Z)
| m_setTurbo (on : bool)
| m_setEcono (on : bool)
| m_setWifi (on : bool)
| m_setLight (on : bool).

(** The bit-field a field setter assigns. *)
Definition written_field (m : method) : option bitfield :=
  match m with
  | m_stateReset | m_setRaw _ => None
  | m_setPower _ => Some Power
  | m_setMode _ => Some Mode
  | m_setTemp _ => Some Temp
  | m_setFan _ => Some FanSpeed
  | m_setTurbo _ => Some Turbo
  | m_setEcono _ => Some Econo
  | m_setWifi _ => Some Wifi
  | m_setLight _ => Some Light
  end.

(** The fields that have an accessor. *)
Definition accessor_fields : list bitfield :=
  [Power; Mode; Temp; FanSpeed; Turbo; Econo; Wifi; Light].

(** Bit [j] of byte [i] is outside every field that has an accessor: the
    reserved and unknown bits, the swing and sleep bits, the timer fields. *)
Definition reserved_bit (i : nat) (j : Z) : Prop :=
  List.Forall (fun f => ~ in_field f i j) accessor_fields.

(** A call the class admits: [setRaw] is given (at least) 10 bytes. *)
Definition valid_call (m : method) : Prop :=
  match m with
  | m_setRaw new_code =>
      (Z.to_nat kVoltasStateLength <= List.length new_code)%nat /\ bytes new_code
  | _ => True
  end.

Section Calls.
Context `{K : VoltasConstants}.

Definition call (m : method) (s : list Z) : list Z :=
  match m with
  | m_stateReset => stateReset
  | m_setRaw new_code => setRaw new_code
  | m_setPower on => setPower on s
  | m_setMode mode => setMode mode s
  | m_setTemp temp => setTemp temp s
  | m_setFan fan => setFan fan s
  | m_setTurbo on => setTurbo on s
  | m_setEcono on => setEcono on s
  | m_setWifi on => setWifi on s
  | m_setLight on => setLight on s
  end.

Definition calls (ms : list method) (s : list Z) : list Z :=
  fold_left (fun s m => call m s) ms s.

(** The value a field setter assigns to its bit-field: the argument of a
    boolean setter, the accepted or replaced code of [setMode] and [setFan],
    the clamped offset of [setTemp]. *)
Definition stored_value (m : method) : Z :=
  match m with
  | m_stateReset | m_setRaw _ => 0
  | m_setPower on | m_setTurbo on | m_setEcono on | m_setWifi on
  | m_setLight on => Z.b2z on
  | m_setMode mode => if is_mode mode then mode else kVoltasCool
  | m_setTemp temp =>
      Z.min kVoltasMaxTemp (Z.max kVoltasMinTemp temp) - kVoltasMinTemp
  | m_setFan fan => if is_fan fan then fan else kVoltasFanAuto
  end.
End Calls.

(** ** Reception: [IRrecv::decodeVoltas], ir_Voltas.cpp:59-78 *)

(** Timing profile, ir_Voltas.cpp:22-25. *)
Definition kVoltasBitMark : Z := 1026.
Definition kVoltasOneSpace : Z := 2553.
Definition kVoltasZeroSpace : Z := 554.
Definition kVoltasFreq : Z := 38000.

(** Modelled from the spec: [decode_results] is declared in IRrecv.h, which is
    not part of the sources; these are the members [decodeVoltas] uses: the
    captured pulse durations, the decoded bytes, and the "decoded result"
    ([decode_type] and [bits]). *)
Record decode_results : Type := {
  rawbuf : list Z;
  rawlen : Z;
  state : list Z;
  decode_type : decode_type_t;
  bits : Z
}.

Section Decode.
(** The generic pulse engine is an external collaborator: [matchGeneric]
    (IRrecv.cpp) and the gap [kDefaultMessageGap] are parameters. The
    engine receives the pulses, the buffer to fill, the number of pulses
    left, the number of bits, the header, bit and footer timings and the
    [atleast] flag; it returns the number of pulses it consumed, 0 when
    they do not match, together with the contents of the buffer after the
    call. *)
Variable kDefaultMessageGap : Z.
Variable matchGeneric :
  list Z -> list Z -> Z -> Z -> Z -> Z -> Z -> Z -> Z -> Z -> Z -> Z -> bool ->
  Z * list Z.

(** The call of [matchGeneric] in [decodeVoltas]. *)
Definition match_data (results : decode_results) (offset nbits : Z) : Z * list Z :=
  matchGeneric (drop (Z.to_nat offset) (rawbuf results)) (state results)
               (uint16 (rawlen results - offset)) nbits
               0 0
               kVoltasBitMark kVoltasOneSpace
               kVoltasBitMark kVoltasZeroSpace
               kVoltasBitMark kDefaultMessageGap true.

(** The returned boolean and [*results] after the call. *)
Definition decodeVoltas (results : decode_results) (offset nbits : Z)
           (strict : bool) : bool * decode_results :=
  if strict && negb (nbits =? kVoltasBits) then (false, results)
  else
    let (used, decoded) := match_data results offset nbits in
    let results :=
      {| rawbuf := rawbuf results; rawlen := rawlen results;
         state := decoded;
         decode_type := decode_type results; bits := bits results |} in
    if used =? 0 then (false, results)
    else if strict && negb (validChecksum (state results) (nbits / 8))
    then (false, results)
    else (true,
          {| rawbuf := rawbuf results; rawlen := rawlen results;
             state := state results;
             decode_type := VOLTAS; bits := nbits |}).
End Decode.

(** A choice of the protocol constants that satisfies every assumption made
    below; it serves to run the model on concrete inputs. *)
Definition sample_constants : VoltasConstants :=
  {| kVoltasMinTemp := 16; kVoltasMaxTemp := 30;
     kVoltasFan := 1; kVoltasHeat := 2; kVoltasDry := 4; kVoltasCool := 8;
     kVoltasFanLow := 4; kVoltasFanMed := 2; kVoltasFanHigh := 1;
     kVoltasFanAuto := 7 |}.

(** A stand-in for the pulse engine, for concrete runs: it accepts a capture
    exactly when it holds more than [nbits] pulse pairs and then yields
    the documented buffer. *)
Definition sample_matchGeneric
    (data_ptr result_ptr : list Z)
    (remaining nbits hdrmark hdrspace onemark onespace zeromark zerospace
     footermark footerspace : Z) (atleast : bool) : Z * list Z :=
  if 2 * nbits + 2 <=? remaining then (2 * nbits + 2, fixture)
  else (0, result_ptr).

(** ** Further members of the class and of the transmission boundary *)

(** [IRVoltas::on] and [IRVoltas::off], ir_Voltas.cpp:147-150. *)
Definition on (s : list Z) : list Z := setPower true s.
Definition off (s : list Z) : list Z := setPower false s.

(** Bit [j] of byte [i] belongs to the field [f], as a test. *)
Definition in_fieldb (f : bitfield) (i : nat) (j : Z) : bool :=
  (i =? bf_byte f)%nat && (bf_lsb f <=? j) && (j <? bf_lsb f + bf_width f).

(** Two bit-fields share a bit. *)
Definition overlapb (f g : bitfield) : bool :=
  (bf_byte f =? bf_byte g)%nat
  && (bf_lsb f <? bf_lsb g + bf_width g) && (bf_lsb g <? bf_lsb f + bf_width f).

(** A bit-field of the declaration: it lies inside one of the 10 bytes. *)
Definition declared_field (f : bitfield) : Prop :=
  (bf_byte f < Z.to_nat kVoltasStateLength)%nat
  /\ 0 <= bf_lsb f /\ 0 < bf_width f /\ bf_lsb f + bf_width f <= 8.

Section Validated.
Context `{K : VoltasConstants}.

(** What the validating setters establish: the Mode and FanSpeed fields hold
    one of the case labels and the temperature read back lies between
    [kVoltasMinTemp] and [kVoltasMaxTemp]. *)
Definition validated (s : list Z) : Prop :=
  In (getMode s) mode_codes /\ In (getFan s) fan_codes
  /\ kVoltasMinTemp <= getTemp s <= kVoltasMaxTemp.

(** The protocol constants are [uint8_t] values that fit their bit-fields. *)
Definition constants_fit : Prop :=
  0 <= kVoltasMinTemp /\ kVoltasMinTemp <= kVoltasMaxTemp
  /\ kVoltasMaxTemp <= kVoltasMinTemp + 15 /\ kVoltasMaxTemp < 256
  /\ Forall (fun k => 0 <= k < 16) mode_codes
  /\ Forall (fun k => 0 <= k < 8) fan_codes.
End Validated.

Section Send.
(** The generic pulse engine on the sending side: [sendGeneric] (IRsend.cpp)
    and the constants [kDefaultMessageGap] and [kDutyDefault] are parameters;
    [signal] stands for what the engine emits. Its arguments are the header
    mark and space, the mark and space of a one and of a zero, the footer mark
    and the gap, the data and its length, the frequency, the bit order, the
    repeat count and the duty cycle. *)
Variable signal : Type.
Variables kDefaultMessageGap kDutyDefault : Z.
Variable sendGeneric :
  Z -> Z -> Z -> Z -> Z -> Z -> Z -> Z -> list Z -> Z -> Z -> bool -> Z -> Z ->
  signal.

(** [IRsend::sendVoltas], ir_Voltas.cpp:39-47. *)
Definition sendVoltas (data : list Z) (nbytes repeat : Z) : signal :=
  sendGeneric 0 0
              kVoltasBitMark kVoltasOneSpace
              kVoltasBitMark kVoltasZeroSpace
              kVoltasBitMark kDefaultMessageGap
              data nbytes
              kVoltasFreq true repeat kDutyDefault.

(** [IRVoltas::send], ir_Voltas.cpp:103-105: what is emitted, and the state
    after the call ([getRaw] writes the checksum into it). *)
Definition send (s : list Z) (repeat : Z) : signal * list Z :=
  let raw := getRaw s in
  (sendVoltas raw kVoltasStateLength repeat, raw).
End Send.

(** ** Lemmas on the checksum *)

Lemma uint8_range z : 0 <= uint8 z < 256.
Proof. unfold uint8. apply Z.mod_pos_bound. lia. Qed.

Lemma uint8_small z : 0 <= z < 256 -> uint8 z = z.
Proof. intros H. unfold uint8. apply Z.mod_small. exact H. Qed.

Lemma uint8_lnot r : 0 <= r < 256 -> uint8 (Z.lnot r) = 255 - r.
Proof.
  intros H. unfold uint8, Z.lnot.
  symmetry. apply (Z.mod_unique _ _ (-1)); lia.
Qed.

(** The accumulator wraps at every addition; the result is the wrapped sum. *)
Lemma fold_uint8_sum (l : list Z) (init : Z) :
  fold_left (fun checksum b => uint8 (checksum + b)) l init =
  if l is [] then init else uint8 (init + fold_right Z.add 0 l).
Proof.
  revert init. induction l as [|b l IH]; intros init; [reflexivity|].
  cbn [fold_left fold_right]. rewrite IH. destruct l as [|c l].
  - cbn. f_equal. lia.
  - unfold uint8. rewrite Zplus_mod_idemp_l. f_equal. cbn [fold_right]. lia.
Qed.

Lemma sumBytes_sum (start : list Z) (length : Z) :
  sumBytes start length 0 =
  uint8 (fold_right Z.add 0 (take (Z.to_nat length) start)).
Proof.
  unfold sumBytes. rewrite fold_uint8_sum.
  destruct (take (Z.to_nat length) start); reflexivity.
Qed.

Lemma calcChecksum_range state length : 0 <= calcChecksum state length < 256.
Proof. apply uint8_range. Qed.

(** C2: for [length >= 1] and a buffer that holds the [length - 1] bytes read,
    [calcChecksum state length] is the bitwise complement, within a byte, of
    the sum modulo 256 of [state[0..length-2]]: as a number it is 255 minus
    that sum, and each of its 8 bits is the negation of the sum's bit. On the
    documented buffer and length 10 it is 0x40. *)
Theorem calcChecksum_complement_of_sum (state : list Z) (length : Z) :
  1 <= length ->
  length - 1 <= Z.of_nat (List.length state) ->
  let sum := (fold_right Z.add 0 (take (Z.to_nat (length - 1)) state)) mod 256 in
  calcChecksum state length = 255 - sum
  /\ (forall i, 0 <= i < 8 ->
        Z.testbit (calcChecksum state length) i = negb (Z.testbit sum i))
  /\ calcChecksum fixture 10 = 0x40.
Proof.
  intros Hlen Hbuf sum.
  assert (Hsum : 0 <= sum < 256) by (apply Z.mod_pos_bound; lia).
  assert (Hc : calcChecksum state length = uint8 (Z.lnot sum)).
  { unfold calcChecksum. destruct (Z.eqb_spec length 0) as [->|_]; [lia|].
    cbv zeta. rewrite sumBytes_sum. reflexivity. }
  split; [|split].
  - rewrite Hc. apply uint8_lnot. exact Hsum.
  - intros i Hi. rewrite Hc. unfold uint8.
    change 256 with (2 ^ 8). rewrite Z.mod_pow2_bits_low by lia.
    apply Z.lnot_spec. lia.
  - reflexivity.
Qed.

Lemma calcChecksum_complement_of_sum_witness :
  calcChecksum [0x12; 0xF0; 0x07; 0x99] 4 = 255 - 9.
Proof.
  refine (proj1 (calcChecksum_complement_of_sum [0x12; 0xF0; 0x07; 0x99] 4 _ _)).
  - lia.
  - cbn. lia.
Defined.

(** C3 as the code has it: with [length = 0] the sum is skipped and the
    function returns the complement of the initial [result = 0], that is
    0xFF, for every buffer; so does [length = 1], whose sum is empty. *)
Theorem calcChecksum_length_zero (buffer : list Z) :
  calcChecksum buffer 0 = 0xFF /\ calcChecksum buffer 1 = 0xFF.
Proof. split; reflexivity. Qed.

(** C3 as stated fails: on the documented buffer, [calcChecksum] with length
    0 is 255 and not 0. *)
Lemma calcChecksum_length_zero_not_zero :
  calcChecksum fixture 0 = 255 /\ ~ (forall buffer, calcChecksum buffer 0 = 0).
Proof.
  split; [reflexivity|].
  intros H. specialize (H fixture). discriminate H.
Qed.

(** ** Bit-field accessors *)

Lemma byte_at_insert_eq (s : list Z) (i : nat) (v : Z) :
  (i < List.length s)%nat -> byte_at (<[i:=v]> s) i = v.
Proof.
  intros Hi. unfold byte_at. rewrite nth_lookup.
  rewrite list_lookup_insert_eq by exact Hi. reflexivity.
Qed.

Lemma byte_at_insert_ne (s : list Z) (i k : nat) (v : Z) :
  i <> k -> byte_at (<[i:=v]> s) k = byte_at s k.
Proof.
  intros Hik. unfold byte_at. rewrite !nth_lookup.
  rewrite list_lookup_insert_ne by exact Hik. reflexivity.
Qed.

Lemma length_set_field f v s : List.length (set_field f v s) = List.length s.
Proof. unfold set_field. apply length_insert. Qed.

Ltac bits :=
  repeat first
    [ rewrite Z.land_spec | rewrite Z.lor_spec | rewrite Z.ldiff_spec
    | rewrite Z.shiftr_spec by lia | rewrite Z.shiftl_spec by lia
    | rewrite Z.testbit_ones_nonneg by lia ].

(** A store into a field is read back truncated to the width of the field. *)
Lemma get_set_field (f : bitfield) (v : Z) (s : list Z) :
  (bf_byte f < List.length s)%nat -> 0 <= bf_lsb f -> 0 <= bf_width f ->
  get_field f (set_field f v s) = v mod 2 ^ bf_width f.
Proof.
  intros Hi Hl Hw. unfold get_field, set_field, mask.
  rewrite byte_at_insert_eq by exact Hi.
  rewrite <- Z.land_ones by exact Hw.
  apply Z.bits_inj'. intros n Hn. bits.
  replace (n + bf_lsb f - bf_lsb f) with n by lia. bits.
  destruct (Z.ltb_spec n (bf_width f)) as [Hlt|Hge].
  - replace (n + bf_lsb f - bf_lsb f <? bf_width f) with true
      by (symmetry; apply Z.ltb_lt; lia).
    rewrite andb_false_r, andb_true_r. reflexivity.
  - rewrite !andb_false_r. reflexivity.
Qed.

(** A store into a field keeps every bit of the state outside the field. *)
Lemma set_field_frame (f : bitfield) (v : Z) (s : list Z) (i : nat) (j : Z) :
  0 <= bf_lsb f -> 0 <= bf_width f -> ~ in_field f i j ->
  state_bit (set_field f v s) i j = state_bit s i j.
Proof.
  intros Hl Hw Hout. unfold state_bit, set_field.
  destruct (Nat.eq_dec (bf_byte f) i) as [<-|Hne];
    [|rewrite byte_at_insert_ne by exact Hne; reflexivity].
  destruct (Nat.lt_ge_cases (bf_byte f) (List.length s)) as [Hin|Hover];
    [|rewrite list_insert_ge by exact Hover; reflexivity].
  rewrite byte_at_insert_eq by exact Hin.
  destruct (Z.neg_nonneg_cases j) as [Hneg|Hj];
    [rewrite !Z.testbit_neg_r by exact Hneg; reflexivity|].
  unfold mask. bits.
  assert (Hj' : j < bf_lsb f \/ bf_lsb f + bf_width f <= j)
    by (unfold in_field in Hout; lia).
  destruct (Z.lt_ge_cases j (bf_lsb f)) as [Hlow|Hhigh].
  - repeat rewrite (Z.testbit_neg_r _ (j - bf_lsb f)) by lia.
    rewrite andb_false_r, orb_false_r, andb_true_r. reflexivity.
  - bits.
    replace (j - bf_lsb f <? bf_width f) with false
      by (symmetry; apply Z.ltb_ge; lia).
    rewrite andb_false_r, orb_false_r, andb_true_r. reflexivity.
Qed.

(** ** The validating setters *)

Section CodecFacts.
Context `{K : VoltasConstants}.

(** [setMode] stores its argument when it is a case label and
    [kVoltasCool] otherwise. *)
Lemma setMode_stores (mode : Z) (s : list Z) :
  setMode mode s =
  set_field Mode (if is_mode mode then mode else kVoltasCool) s.
Proof.
  funelim (setMode mode s).
  - rewrite e. reflexivity.
  - rewrite Hdefault.
    match goal with IH : setMode kVoltasCool _ = set_field _ _ _ |- _ =>
      rewrite IH end.
    unfold is_mode at 1. rewrite Z.eqb_refl, !orb_true_r. reflexivity.
Qed.

(** [setFan] stores its argument when it is a case label and
    [kVoltasFanAuto] otherwise. *)
Lemma setFan_stores (fan : Z) (s : list Z) :
  setFan fan s =
  set_field FanSpeed (if is_fan fan then fan else kVoltasFanAuto) s.
Proof.
  funelim (setFan fan s).
  - rewrite e. reflexivity.
  - rewrite Hdefault.
    match goal with IH : setFan kVoltasFanAuto _ = set_field _ _ _ |- _ =>
      rewrite IH end.
    unfold is_fan at 1. rewrite Z.eqb_refl, !orb_true_r. reflexivity.
Qed.

(** Every field setter is one store into its field. *)
Lemma call_setter_stores (m : method) (f : bitfield) (s : list Z) :
  written_field m = Some f -> exists v, call m s = set_field f v s.
Proof.
  destruct m; cbn [written_field call]; intros Hf;
    try discriminate Hf; injection Hf as <-.
  - eexists. reflexivity.
  - eexists. apply setMode_stores.
  - eexists. reflexivity.
  - eexists. apply setFan_stores.
  - eexists. reflexivity.
  - eexists. reflexivity.
  - eexists. reflexivity.
  - eexists. reflexivity.
Qed.

Lemma written_field_shape (m : method) (f : bitfield) :
  written_field m = Some f -> 0 <= bf_lsb f /\ 0 <= bf_width f.
Proof.
  destruct m; cbn [written_field]; intros Hf;
    try discriminate Hf; injection Hf as <-; cbn; lia.
Qed.

Lemma length_call_setter (m : method) (f : bitfield) (s : list Z) :
  written_field m = Some f -> List.length (call m s) = List.length s.
Proof.
  intros Hf. destruct (call_setter_stores m f s Hf) as [v ->].
  apply length_set_field.
Qed.

(** C5: a field setter ([setPower], [setMode], [setTemp], [setFan],
    [setTurbo], [setEcono], [setWifi], [setLight]), whatever its argument
    and the state, changes no bit of the state outside the byte and bit
    positions of the field it writes and keeps the length of the state. In
    particular every bit that belongs to no field with an accessor (the
    reserved and unknown bits, the timer fields) goes unchanged through
    every such call, while [stateReset] clears every bit. *)
Theorem setter_frame (m : method) (f : bitfield) (s : list Z) :
  written_field m = Some f ->
  (forall i j, ~ in_field f i j ->
               state_bit (call m s) i j = state_bit s i j)
  /\ (forall i j, reserved_bit i j ->
                  state_bit (call m s) i j = state_bit s i j)
  /\ List.length (call m s) = List.length s
  /\ (forall i j, state_bit (call m_stateReset s) i j = false).
Proof.
  intros Hf.
  assert (Hframe : forall i j, ~ in_field f i j ->
                     state_bit (call m s) i j = state_bit s i j).
  { intros i j Hout. destruct (call_setter_stores m f s Hf) as [v ->].
    destruct (written_field_shape m f Hf) as [Hl Hw].
    apply set_field_frame; assumption. }
  split; [exact Hframe|]. split; [|split].
  - intros i j Hres. apply Hframe.
    unfold reserved_bit, accessor_fields in Hres.
    rewrite List.Forall_forall in Hres. apply Hres.
    destruct m; cbn [written_field] in Hf; try discriminate Hf;
      injection Hf as <-; cbn; tauto.
  - apply (length_call_setter m f s Hf).
  - intros i j. cbn [call]. unfold state_bit, byte_at, stateReset.
    rewrite nth_lookup.
    destruct (replicate (Z.to_nat kVoltasStateLength) 0 !! i) as [b|] eqn:Hb.
    + apply lookup_replicate in Hb as [-> _]. apply Z.testbit_0_l.
    + apply Z.testbit_0_l.
Qed.
End CodecFacts.

Lemma setter_frame_witness :
  state_bit (call (K := sample_constants) (m_setTemp 99)
                  [0xFF; 0xFF; 0xFF; 0xFF; 0xFF; 0xFF; 0xFF; 0xFF; 0xFF; 0xFF])
            3 6 = true.
Proof.
  refine (proj1 (setter_frame (K := sample_constants) (m_setTemp 99) Temp
                   [0xFF; 0xFF; 0xFF; 0xFF; 0xFF; 0xFF; 0xFF; 0xFF; 0xFF; 0xFF]
                   _) 3%nat 6 _).
  - reflexivity.
  - unfold in_field. cbn. lia.
Defined.

(** The positions the allocation gives to the named bit-fields are the ones
    of the layout table of the specification (byte, first bit, width). *)
Lemma layout_table :
  List.map (fun nf => (fst nf, (bf_byte (snd nf), bf_lsb (snd nf), bf_width (snd nf))))
           (List.filter (fun nf => negb (String.eqb (fst nf) ""))
                        (allocate 0 VoltasProtocol_decl)) =
  [ ("SwingH", (0%nat, 0, 1)); ("Unknown0", (0%nat, 1, 7));
    ("Mode", (1%nat, 0, 4)); ("FanSpeed", (1%nat, 5, 3));
    ("SwingV", (2%nat, 0, 3)); ("Wifi", (2%nat, 3, 1));
    ("Turbo", (2%nat, 5, 1)); ("Sleep", (2%nat, 6, 1));
    ("Power", (2%nat, 7, 1));
    ("Temp", (3%nat, 0, 4)); ("Unknown3", (3%nat, 4, 2));
    ("Econo", (3%nat, 6, 1)); ("TempSet", (3%nat, 7, 1));
    ("OffTimer24h4", (4%nat, 0, 1));
    ("OffTimer24h5", (5%nat, 0, 1)); ("TimerAdd12Hr", (5%nat, 7, 1));
    ("TimerHrs", (7%nat, 4, 4));
    ("Light", (8%nat, 5, 1)); ("OffTimerEnable", (8%nat, 6, 1));
    ("Checksum", (9%nat, 0, 8)) ]%string.
Proof. reflexivity. Qed.

(** No bit-field straddles a byte, and together they fill the 10 bytes. *)
Lemma layout_fits :
  List.forallb (fun nf => bf_lsb (snd nf) + bf_width (snd nf) <=? 8)
               (allocate 0 VoltasProtocol_decl) = true
  /\ fold_right Z.add 0 (List.map snd VoltasProtocol_decl) = 8 * kVoltasStateLength.
Proof. split; reflexivity. Qed.

Section FieldFacts.
Context `{K : VoltasConstants}.

(** C6: when the constants are [uint8_t] values with
    [kVoltasMinTemp <= kVoltasMaxTemp] and the range fits the 4-bit field
    ([kVoltasMaxTemp - kVoltasMinTemp <= 15]), then for every input [t],
    [setTemp t] stores [min(MaxTemp, max(MinTemp, t)) - MinTemp] in the
    Temp field and the following [getTemp] returns the stored field plus
    [MinTemp]; [setTemp 0] reads back as [MinTemp] and [setTemp 255] as
    [MaxTemp]. *)
Theorem setTemp_clamps (t : Z) (s : list Z) :
  0 <= kVoltasMinTemp -> kVoltasMinTemp <= kVoltasMaxTemp ->
  kVoltasMaxTemp <= kVoltasMinTemp + 15 -> kVoltasMaxTemp < 256 ->
  List.length s = Z.to_nat kVoltasStateLength ->
  get_field Temp (setTemp t s) =
    Z.min kVoltasMaxTemp (Z.max kVoltasMinTemp t) - kVoltasMinTemp
  /\ getTemp (setTemp t s) = get_field Temp (setTemp t s) + kVoltasMinTemp
  /\ getTemp (setTemp 0 s) = kVoltasMinTemp
  /\ getTemp (setTemp 255 s) = kVoltasMaxTemp.
Proof.
  intros Hmin Hle Hfit Hmax Hlen.
  assert (Hlen' : List.length s = 10%nat) by exact Hlen.
  assert (Hstored : forall t',
            get_field Temp (setTemp t' s) =
            Z.min kVoltasMaxTemp (Z.max kVoltasMinTemp t') - kVoltasMinTemp).
  { intros t'. unfold setTemp. cbv zeta.
    rewrite get_set_field by (cbn [Temp bf_byte bf_lsb bf_width]; lia).
    apply Z.mod_small. cbn [Temp bf_width]. change (2 ^ 4) with 16. lia. }
  assert (Hget : forall t',
            getTemp (setTemp t' s) =
            get_field Temp (setTemp t' s) + kVoltasMinTemp).
  { intros t'. unfold getTemp. apply uint8_small.
    rewrite Hstored. lia. }
  split; [apply Hstored|]. split; [apply Hget|]. split.
  - rewrite Hget, Hstored. lia.
  - rewrite Hget, Hstored. lia.
Qed.

(** C10: [getTemp] does not validate. For a 10-byte buffer [X] installed by
    [setRaw], it returns the low nibble of byte 3 plus [kVoltasMinTemp]
    (the constant being a [uint8_t] that leaves room for the nibble); a
    nibble above [kVoltasMaxTemp - kVoltasMinTemp] is therefore read as
    a temperature strictly above [kVoltasMaxTemp]. *)
Theorem getTemp_raw_nibble (X : list Z) :
  List.length X = Z.to_nat kVoltasStateLength ->
  0 <= kVoltasMinTemp -> kVoltasMinTemp + 15 < 256 ->
  let nibble := Z.land (byte_at X 3) 15 in
  getTemp (setRaw X) = nibble + kVoltasMinTemp
  /\ (kVoltasMaxTemp - kVoltasMinTemp < nibble ->
      kVoltasMaxTemp < getTemp (setRaw X)).
Proof.
  intros Hlen Hmin Hroom nibble.
  assert (Hraw : setRaw X = X).
  { unfold setRaw. apply firstn_all2. rewrite Hlen. lia. }
  assert (Hnib : 0 <= nibble < 16).
  { unfold nibble. change 15 with (Z.ones 4). rewrite Z.land_ones by lia.
    apply Z.mod_pos_bound. lia. }
  assert (Hget : getTemp (setRaw X) = nibble + kVoltasMinTemp).
  { rewrite Hraw. unfold getTemp, get_field. cbn [Temp bf_byte bf_lsb bf_width].
    rewrite Z.shiftr_0_r. change (Z.ones 4) with 15. fold nibble.
    apply uint8_small. lia. }
  split; [exact Hget|]. intros Hover. rewrite Hget. lia.
Qed.
End FieldFacts.

Lemma setTemp_clamps_witness :
  getTemp (K := sample_constants) (setTemp (K := sample_constants) 255 fixture) = 30.
Proof.
  refine (proj2 (proj2 (proj2
    (setTemp_clamps (K := sample_constants) 255 fixture _ _ _ _ _)))).
  all: cbv [sample_constants kVoltasMinTemp kVoltasMaxTemp];
    try reflexivity; lia.
Defined.

Lemma getTemp_raw_nibble_witness :
  30 < getTemp (K := sample_constants)
               (setRaw [0x33; 0x28; 0x88; 0x1F; 0x3B; 0x3B; 0x3B; 0x11; 0x00; 0x3B]).
Proof.
  refine (proj2 (getTemp_raw_nibble (K := sample_constants)
                   [0x33; 0x28; 0x88; 0x1F; 0x3B; 0x3B; 0x3B; 0x11; 0x00; 0x3B]
                   _ _ _) _).
  - reflexivity.
  - cbv [sample_constants kVoltasMinTemp]. lia.
  - cbv [sample_constants kVoltasMinTemp]. lia.
  - cbv [sample_constants kVoltasMinTemp kVoltasMaxTemp byte_at nth].
    change (Z.land 0x1F 15) with 15. lia.
Defined.

(** ** Mode, fan speed, summary and emitted checksum *)

Section ClassFacts.
Context `{K : VoltasConstants}.

Lemma is_mode_In (mode : Z) : is_mode mode = true <-> In mode mode_codes.
Proof.
  unfold is_mode, mode_codes. cbn [In].
  rewrite !orb_true_iff, !Z.eqb_eq. intuition congruence.
Qed.

Lemma is_fan_In (fan : Z) : is_fan fan = true <-> In fan fan_codes.
Proof.
  unfold is_fan, fan_codes. cbn [In].
  rewrite !orb_true_iff, !Z.eqb_eq. intuition congruence.
Qed.

Lemma getMode_setMode (m : Z) (s : list Z) :
  List.length s = Z.to_nat kVoltasStateLength ->
  getMode (setMode m s) = (if is_mode m then m else kVoltasCool) mod 16.
Proof.
  intros Hlen. assert (Hlen' : List.length s = 10%nat) by exact Hlen.
  rewrite setMode_stores. unfold getMode.
  rewrite get_set_field by (cbn [Mode bf_byte bf_lsb bf_width]; lia).
  reflexivity.
Qed.

Lemma getFan_setFan (f : Z) (s : list Z) :
  List.length s = Z.to_nat kVoltasStateLength ->
  getFan (setFan f s) = (if is_fan f then f else kVoltasFanAuto) mod 8.
Proof.
  intros Hlen. assert (Hlen' : List.length s = 10%nat) by exact Hlen.
  rewrite setFan_stores. unfold getFan.
  rewrite get_set_field by (cbn [FanSpeed bf_byte bf_lsb bf_width]; lia).
  reflexivity.
Qed.

(** C7: when the mode codes fit the 4-bit Mode field and the fan codes the
    3-bit FanSpeed field, then after [setMode m] the Mode field is [m] if
    [m] is one of Fan, Heat, Dry, Cool and Cool otherwise, and after
    [setFan f] the FanSpeed field is [f] if [f] is one of Low, Med, High,
    Auto and Auto otherwise; [getMode] and [getFan] return the bits of
    byte 1 (bits 0-3 and bits 5-7) of any state as they are. *)
Theorem setMode_setFan_remap (m f : Z) (s : list Z) :
  List.length s = Z.to_nat kVoltasStateLength ->
  Forall (fun k => 0 <= k < 16) mode_codes ->
  Forall (fun k => 0 <= k < 8) fan_codes ->
  (In m mode_codes -> getMode (setMode m s) = m)
  /\ (~ In m mode_codes -> getMode (setMode m s) = kVoltasCool)
  /\ (In f fan_codes -> getFan (setFan f s) = f)
  /\ (~ In f fan_codes -> getFan (setFan f s) = kVoltasFanAuto)
  /\ (forall X, getMode X = byte_at X 1 mod 16
                /\ getFan X = (byte_at X 1 / 32) mod 8).
Proof.
  intros Hlen Hmodes Hfans.
  rewrite List.Forall_forall in Hmodes, Hfans.
  assert (Hcool : In kVoltasCool mode_codes) by (cbn; tauto).
  assert (Hauto : In kVoltasFanAuto fan_codes) by (cbn; tauto).
  repeat split.
  - intros Hin. rewrite getMode_setMode by exact Hlen.
    rewrite (proj2 (is_mode_In m) Hin). apply Z.mod_small, Hmodes, Hin.
  - intros Hout. rewrite getMode_setMode by exact Hlen.
    destruct (is_mode m) eqn:Hm; [apply is_mode_In in Hm; contradiction|].
    apply Z.mod_small, Hmodes, Hcool.
  - intros Hin. rewrite getFan_setFan by exact Hlen.
    rewrite (proj2 (is_fan_In f) Hin). apply Z.mod_small, Hfans, Hin.
  - intros Hout. rewrite getFan_setFan by exact Hlen.
    destruct (is_fan f) eqn:Hf; [apply is_fan_In in Hf; contradiction|].
    apply Z.mod_small, Hfans, Hauto.
  - unfold getMode, get_field. cbn [Mode bf_byte bf_lsb bf_width].
    rewrite Z.shiftr_0_r, Z.land_ones by lia. reflexivity.
  - unfold getFan, get_field. cbn [FanSpeed bf_byte bf_lsb bf_width].
    rewrite Z.shiftr_div_pow2, Z.land_ones by lia. reflexivity.
Qed.

(** C8: [convertFan] maps Min and Low to Low, Medium to Med, High and Max
    to High, and Auto to Auto. With pairwise distinct native codes (they
    are the case labels of one [switch]), [toCommonFanSpeed] maps High to
    Max, Med to Medium, Low to Min, and every other value, Auto included,
    to Auto. Neither conversion undoes the other: Low goes to Low and comes
    back as Min, and a value that is no fan code comes back as Auto. *)
Theorem fan_conversions :
  NoDup fan_codes ->
  (convertFan kMin = kVoltasFanLow /\ convertFan kLow = kVoltasFanLow
   /\ convertFan kMedium = kVoltasFanMed
   /\ convertFan kHigh = kVoltasFanHigh /\ convertFan kMax = kVoltasFanHigh
   /\ convertFan kAuto = kVoltasFanAuto)
  /\ (toCommonFanSpeed kVoltasFanHigh = kMax
      /\ toCommonFanSpeed kVoltasFanMed = kMedium
      /\ toCommonFanSpeed kVoltasFanLow = kMin
      /\ toCommonFanSpeed kVoltasFanAuto = kAuto
      /\ forall spd, spd <> kVoltasFanHigh -> spd <> kVoltasFanMed ->
                     spd <> kVoltasFanLow -> toCommonFanSpeed spd = kAuto)
  /\ (toCommonFanSpeed (convertFan kLow) = kMin
      /\ toCommonFanSpeed (convertFan kHigh) = kMax
      /\ forall spd, ~ In spd fan_codes ->
                     convertFan (toCommonFanSpeed spd) <> spd).
Proof.
  intros Hdistinct. unfold fan_codes in Hdistinct.
  assert (Hne : kVoltasFanLow <> kVoltasFanMed /\ kVoltasFanLow <> kVoltasFanHigh
                /\ kVoltasFanLow <> kVoltasFanAuto
                /\ kVoltasFanMed <> kVoltasFanHigh
                /\ kVoltasFanMed <> kVoltasFanAuto
                /\ kVoltasFanHigh <> kVoltasFanAuto).
  { repeat match goal with
           | H : NoDup (_ :: _) |- _ => apply NoDup_cons in H as [? H]
           end.
    repeat match goal with
           | H : _ ∉ _ :: _ |- _ => apply not_elem_of_cons in H as [? H]
           end.
    tauto. }
  destruct Hne as (Hlm & Hlh & Hla & Hmh & Hma & Hha).
  assert (Hother : forall spd, spd <> kVoltasFanHigh -> spd <> kVoltasFanMed ->
                     spd <> kVoltasFanLow -> toCommonFanSpeed spd = kAuto).
  { intros spd H1 H2 H3. unfold toCommonFanSpeed.
    rewrite (proj2 (Z.eqb_neq _ _) H1), (proj2 (Z.eqb_neq _ _) H2),
      (proj2 (Z.eqb_neq _ _) H3). reflexivity. }
  assert (Hhigh : toCommonFanSpeed kVoltasFanHigh = kMax).
  { unfold toCommonFanSpeed. rewrite Z.eqb_refl. reflexivity. }
  assert (Hmed : toCommonFanSpeed kVoltasFanMed = kMedium).
  { unfold toCommonFanSpeed.
    rewrite (proj2 (Z.eqb_neq _ _) Hmh), Z.eqb_refl. reflexivity. }
  assert (Hlow : toCommonFanSpeed kVoltasFanLow = kMin).
  { unfold toCommonFanSpeed.
    rewrite (proj2 (Z.eqb_neq _ _) Hlh), (proj2 (Z.eqb_neq _ _) Hlm),
      Z.eqb_refl. reflexivity. }
  split; [repeat split|]. split.
  - repeat split; try assumption. apply Hother; congruence.
  - split; [exact Hlow|]. split; [exact Hhigh|].
    intros spd Hout. cbn [In fan_codes] in Hout.
    rewrite Hother by intuition congruence. cbn [convertFan]. tauto.
Qed.

(** C9 as the code has it: for every state, [toCommon] assigns the
    protocol, power, the Celsius temperature of [getTemp], the fan speed of
    [toCommonFanSpeed], turbo, econo and light from the state, and the
    fixed values -1, off, false, false, false, -1 to model, horizontal
    swing, quiet, filter, beep and clock; it never assigns the operating
    mode, the vertical swing, clean or sleep. *)
Theorem toCommon_assignments (s : list Z) :
  let result := toCommon s in
  (protocol result = Some VOLTAS
   /\ power result = Some (getPower s)
   /\ celsius result = Some true
   /\ degrees result = Some (getTemp s)
   /\ fanspeed result = Some (toCommonFanSpeed (getFan s))
   /\ turbo result = Some (getTurbo s)
   /\ econo result = Some (getEcono s)
   /\ light result = Some (getLight s))
  /\ (model result = Some (-1)
      /\ swingh result = Some swingh_kOff
      /\ quiet result = Some false
      /\ filter result = Some false
      /\ beep result = Some false
      /\ clock result = Some (-1))
  /\ (mode result = None /\ swingv result = None
      /\ clean result = None /\ sleep result = None).
Proof. cbv zeta. repeat split. Qed.

(** C1 as the code has it: [checksum] announces 9 bytes to [calcChecksum],
    which leaves the last announced byte out, so [getRaw] stores the
    complement of the sum of bytes 0 to 7. After [stateReset] and
    [setLight(true)] byte 8 is 0x20 and [getRaw] yields checksum 0xFF,
    where the complement of the sum of bytes 0 to 8 is 0xDF: the buffer
    fails [validChecksum]. Likewise [setRaw] of the documented buffer
    with byte 8 set to 1 keeps 0x40 in byte 9, where the sum of bytes 0
    to 8 asks for 0x3F. *)
Theorem getRaw_checksum_leaves_out_byte8 :
  let s := calls [m_stateReset; m_setLight true] stateReset in
  let X := [0x33; 0x28; 0x88; 0x1A; 0x3B; 0x3B; 0x3B; 0x11; 0x01; 0x00] in
  (getRaw s = [0; 0; 0; 0; 0; 0; 0; 0; 0x20; 0xFF]
   /\ calcChecksum (getRaw s) kVoltasStateLength = 0xDF
   /\ validChecksum (getRaw s) kVoltasStateLength = false)
  /\ (getRaw (calls [m_setRaw X] stateReset)
      = [0x33; 0x28; 0x88; 0x1A; 0x3B; 0x3B; 0x3B; 0x11; 0x01; 0x40]
      /\ calcChecksum X kVoltasStateLength = 0x3F
      /\ validChecksum (getRaw (calls [m_setRaw X] stateReset))
                       kVoltasStateLength = false).
Proof. cbv zeta. repeat split. Qed.
End ClassFacts.

Lemma setMode_setFan_remap_witness :
  getMode (setMode (K := sample_constants) 0xFF fixture) = 8
  /\ getFan (setFan (K := sample_constants) 2 fixture) = 2.
Proof.
  pose proof (setMode_setFan_remap (K := sample_constants) 0xFF 2 fixture) as H.
  destruct H as (_ & Hcool & Hfan & _).
  - reflexivity.
  - unfold mode_codes. cbv [sample_constants kVoltasFan kVoltasHeat kVoltasDry kVoltasCool].
    repeat constructor; lia.
  - unfold fan_codes.
    cbv [sample_constants kVoltasFanLow kVoltasFanMed kVoltasFanHigh kVoltasFanAuto].
    repeat constructor; lia.
  - split.
    + apply Hcool. unfold mode_codes.
      cbv [sample_constants kVoltasFan kVoltasHeat kVoltasDry kVoltasCool In].
      lia.
    + apply Hfan. unfold fan_codes.
      cbv [sample_constants kVoltasFanLow kVoltasFanMed kVoltasFanHigh kVoltasFanAuto In].
      lia.
Defined.

Lemma fan_conversions_witness :
  toCommonFanSpeed (K := sample_constants)
                   (convertFan (K := sample_constants) kLow) = kMin.
Proof.
  refine (proj1 (proj2 (proj2 (fan_conversions (K := sample_constants) _)))).
  unfold fan_codes.
  cbv [sample_constants kVoltasFanLow kVoltasFanMed kVoltasFanHigh kVoltasFanAuto].
  repeat (apply NoDup_cons_2;
          [rewrite ?not_elem_of_cons; repeat split; try lia; apply not_elem_of_nil|]).
  apply NoDup_nil_2.
Defined.

(** ** Reception *)

Section DecodeFacts.
Variable kDefaultMessageGap : Z.
Variable matchGeneric :
  list Z -> list Z -> Z -> Z -> Z -> Z -> Z -> Z -> Z -> Z -> Z -> Z -> bool ->
  Z * list Z.

Local Abbreviation decode := (decodeVoltas kDefaultMessageGap matchGeneric).
Local Abbreviation matched := (match_data kDefaultMessageGap matchGeneric).

(** C4: in strict mode [decodeVoltas] returns true exactly when the
    expected bit count is 80, the pulse engine matched the capture, and
    [validChecksum] holds on the 10 decoded bytes; it then records
    [decode_type = VOLTAS] and [bits = 80]. A bit count other than 80, a
    capture the engine does not match, or an invalid checksum each make it
    return false, and whenever it returns false [decode_type] and [bits]
    are the ones the caller passed in. *)
Theorem decodeVoltas_strict (results : decode_results) (offset nbits : Z) :
  let out := decode results offset nbits true in
  let used := fst (matched results offset nbits) in
  let decoded := snd (matched results offset nbits) in
  (fst out = true <->
     nbits = kVoltasBits /\ used <> 0
     /\ validChecksum decoded kVoltasStateLength = true)
  /\ (fst out = true ->
        decode_type (snd out) = VOLTAS /\ bits (snd out) = kVoltasBits
        /\ state (snd out) = decoded)
  /\ (nbits <> kVoltasBits \/ used = 0
      \/ validChecksum decoded (nbits / 8) = false -> fst out = false)
  /\ (fst out = false ->
        decode_type (snd out) = decode_type results
        /\ bits (snd out) = bits results).
Proof.
  cbv zeta. unfold decodeVoltas. cbn [andb].
  destruct (Z.eqb_spec nbits kVoltasBits) as [->|Hbits]; cbn [negb].
  - destruct (matched results offset kVoltasBits) as [used decoded].
    cbn [fst snd state].
    change (kVoltasBits / 8) with kVoltasStateLength.
    destruct (Z.eqb_spec used 0) as [->|Hused]; cbn [fst snd].
    + repeat split; try discriminate; try tauto; intuition congruence.
    + destruct (validChecksum decoded kVoltasStateLength) eqn:Hsum;
        cbn [negb fst snd decode_type bits state].
      * repeat split; try discriminate; try tauto; intuition congruence.
      * repeat split; try discriminate; try tauto; intuition congruence.
  - cbn [fst snd]. repeat split; try discriminate; try tauto;
      intuition congruence.
Qed.
End DecodeFacts.

Lemma decodeVoltas_strict_witness :
  fst (decodeVoltas 50000 sample_matchGeneric
         {| rawbuf := replicate 163 0; rawlen := 163;
            state := []; decode_type := decode_type_other (-1); bits := 0 |}
         1 80 true) = true.
Proof.
  apply (proj1 (decodeVoltas_strict 50000 sample_matchGeneric
                  {| rawbuf := replicate 163 0; rawlen := 163;
                     state := []; decode_type := decode_type_other (-1);
                     bits := 0 |} 1 80)).
  repeat split. discriminate.
Defined.

(** ** The checksum [getRaw] emits, in general *)

Lemma well_formed_10 (s : list Z) :
  well_formed s ->
  exists b0 b1 b2 b3 b4 b5 b6 b7 b8 b9,
    s = [b0; b1; b2; b3; b4; b5; b6; b7; b8; b9]
    /\ 0 <= b8 < 256 /\ 0 <= b9 < 256.
Proof.
  intros [Hlen Hbytes]. change (Z.to_nat kVoltasStateLength) with 10%nat in Hlen.
  do 10 (destruct s as [|? s]; [discriminate Hlen|]).
  destruct s; [|discriminate Hlen].
  do 10 eexists. split; [reflexivity|].
  unfold bytes in Hbytes. rewrite List.Forall_forall in Hbytes.
  split; apply Hbytes; cbn; tauto.
Qed.

(** On a state of 10 bytes, [getRaw] overwrites byte 9 with the complement of
    the sum of bytes 0 to 7, and the result passes [validChecksum] exactly
    when byte 8 is zero. *)
Lemma getRaw_valid_iff_byte8_zero (s : list Z) :
  well_formed s ->
  getRaw s = <[9%nat := 255 - (fold_right Z.add 0 (take 8 s)) mod 256]> s
  /\ validChecksum (getRaw s) kVoltasStateLength = (byte_at s 8 =? 0).
Proof.
  intros Hwf.
  destruct (well_formed_10 s Hwf)
    as (b0 & b1 & b2 & b3 & b4 & b5 & b6 & b7 & b8 & b9 & -> & Hb8 & Hb9).
  set (sum8 := fold_right Z.add 0 (take 8 [b0; b1; b2; b3; b4; b5; b6; b7; b8; b9])).
  assert (Hc : calcChecksum [b0; b1; b2; b3; b4; b5; b6; b7; b8; b9]
                            (kVoltasStateLength - 1) = 255 - sum8 mod 256).
  { unfold calcChecksum. change (kVoltasStateLength - 1 =? 0) with false.
    cbv zeta. rewrite sumBytes_sum. apply uint8_lnot, Z.mod_pos_bound. lia. }
  assert (Hraw : getRaw [b0; b1; b2; b3; b4; b5; b6; b7; b8; b9]
                 = [b0; b1; b2; b3; b4; b5; b6; b7; b8; 255 - sum8 mod 256]).
  { unfold getRaw, checksum, set_field. rewrite Hc.
    unfold mask. cbn [Checksum bf_byte bf_lsb bf_width byte_at nth].
    rewrite !Z.shiftl_0_r, Z.ldiff_ones_r, Z.shiftr_div_pow2, Z.land_ones by lia.
    change (2 ^ 8) with 256. rewrite (Z.div_small b9) by exact Hb9.
    rewrite Z.shiftl_0_l, Z.lor_0_l.
    rewrite Z.mod_small by (pose proof (Z.mod_pos_bound sum8 256); lia).
    reflexivity. }
  split; [rewrite Hraw; reflexivity|].
  rewrite Hraw. unfold validChecksum, calcChecksum.
  change (kVoltasStateLength =? 0) with false. cbv zeta.
  rewrite sumBytes_sum.
  rewrite uint8_lnot by (apply Z.mod_pos_bound; lia).
  change (Z.to_nat (kVoltasStateLength - 1)) with 9%nat.
  cbn [byte_at nth].
  change (fold_right Z.add 0 (take 9 _))
    with (b0 + (b1 + (b2 + (b3 + (b4 + (b5 + (b6 + (b7 + (b8 + 0))))))))).
  assert (Hs : sum8 = b0 + (b1 + (b2 + (b3 + (b4 + (b5 + (b6 + (b7 + 0))))))))
    by reflexivity.
  unfold uint8.
  replace (b0 + (b1 + (b2 + (b3 + (b4 + (b5 + (b6 + (b7 + (b8 + 0)))))))))
    with (sum8 + b8) by lia.
  clearbody sum8. clear Hs Hraw Hc.
  destruct (Z.eqb_spec b8 0) as [->|Hnz].
  - rewrite Z.add_0_r. apply Z.eqb_refl.
  - apply Z.eqb_neq. intros Heq.
    assert (Hmod : (sum8 + b8) mod 256 = sum8 mod 256) by lia.
    rewrite <- Zplus_mod_idemp_l in Hmod.
    pose proof (Z.mod_pos_bound sum8 256 ltac:(lia)) as Hr.
    remember (sum8 mod 256) as r.
    destruct (Z.lt_ge_cases (r + b8) 256) as [Hlt|Hge].
    + rewrite Z.mod_small in Hmod by lia. lia.
    + replace (r + b8) with ((r + b8 - 256) + 1 * 256) in Hmod by lia.
      rewrite Z_mod_plus_full, Z.mod_small in Hmod by lia. lia.
Qed.

(** ** Every state the class can be in is a 10-byte state *)

Lemma byte_at_range (s : list Z) (i : nat) : bytes s -> 0 <= byte_at s i < 256.
Proof.
  intros Hs. unfold byte_at. rewrite nth_lookup.
  destruct (s !! i) as [b|] eqn:Hb; cbn; [|lia].
  exact (Forall_lookup_1 _ _ _ _ Hs Hb).
Qed.

Lemma testbit_byte_high (b n : Z) : 0 <= b < 256 -> 8 <= n -> Z.testbit b n = false.
Proof.
  intros Hb Hn. rewrite <- (Z.mod_small b (2 ^ 8)) by exact Hb.
  apply Z.mod_pow2_bits_high. lia.
Qed.

(** A store into a field that lies inside its byte keeps the byte a byte. *)
Lemma set_field_bytes (f : bitfield) (v : Z) (s : list Z) :
  0 <= bf_lsb f -> 0 <= bf_width f -> bf_lsb f + bf_width f <= 8 ->
  bytes s -> bytes (set_field f v s).
Proof.
  intros Hl Hw Hfit Hs. unfold set_field. apply Forall_insert; [exact Hs|].
  pose proof (byte_at_range s (bf_byte f) Hs) as Hold.
  set (new := Z.lor _ _).
  assert (Hnonneg : 0 <= new).
  { unfold new. apply Z.lor_nonneg. split.
    - apply Z.ldiff_nonneg. left. lia.
    - apply Z.shiftl_nonneg, Z.land_nonneg. right.
      rewrite Z.ones_equiv. pose proof (Z.pow_pos_nonneg 2 (bf_width f)). lia. }
  assert (Hmod : new = new mod 2 ^ 8).
  { apply Z.bits_inj'. intros n Hn.
    destruct (Z.lt_ge_cases n 8) as [Hlow|Hhigh].
    - rewrite Z.mod_pow2_bits_low by lia. reflexivity.
    - rewrite Z.mod_pow2_bits_high by lia. unfold new. bits.
      rewrite (testbit_byte_high _ n Hold Hhigh).
      replace (n - bf_lsb f <? bf_width f) with false
        by (symmetry; apply Z.ltb_ge; lia).
      rewrite andb_false_r. reflexivity. }
  pose proof (Z.mod_pos_bound new (2 ^ 8) ltac:(lia)) as Hbound.
  rewrite <- Hmod in Hbound. change (2 ^ 8) with 256 in Hbound. lia.
Qed.

Section Reachable.
Context `{K : VoltasConstants}.

Lemma well_formed_call (m : method) (s : list Z) :
  valid_call m -> well_formed s -> well_formed (call m s).
Proof.
  intros Hm [Hlen Hs]. destruct (written_field m) as [f|] eqn:Hf.
  - destruct (call_setter_stores m f s Hf) as [v ->]. split.
    + rewrite length_set_field. exact Hlen.
    + apply set_field_bytes; [..|exact Hs];
        destruct m; cbn [written_field] in Hf; try discriminate Hf;
        injection Hf as <-; cbn; lia.
  - destruct m; try discriminate Hf; cbn [call].
    + split; [apply length_replicate|]. apply Forall_replicate. lia.
    + destruct Hm as [Hmin Hcode]. split.
      * unfold setRaw. rewrite length_take. lia.
      * apply Forall_take. exact Hcode.
Qed.

(** Whatever the sequence of calls after construction, the state has 10
    bytes. *)
Lemma well_formed_calls (ms : list method) (s : list Z) :
  Forall valid_call ms -> well_formed s -> well_formed (calls ms s).
Proof.
  unfold calls. revert s. induction ms as [|m ms IH]; intros s Hms Hs.
  - exact Hs.
  - cbn [fold_left]. apply Forall_cons in Hms as [Hm Hms].
    apply IH; [exact Hms|]. apply well_formed_call; assumption.
Qed.

Lemma well_formed_stateReset : well_formed stateReset.
Proof. split; [apply length_replicate|]. apply Forall_replicate. lia. Qed.

(** X19: after any sequence of calls, the buffer [getRaw] emits passes
    [validChecksum] exactly when byte 8 of the state is zero. *)
Lemma getRaw_valid_after_calls (ms : list method) :
  Forall valid_call ms ->
  validChecksum (getRaw (calls ms stateReset)) kVoltasStateLength
  = (byte_at (calls ms stateReset) 8 =? 0).
Proof.
  intros Hms. apply getRaw_valid_iff_byte8_zero.
  apply well_formed_calls; [exact Hms|]. apply well_formed_stateReset.
Qed.
End Reachable.

(** ** Bits of a state *)

(** Two states of the same length with the same bits are equal. *)
Lemma state_ext (s1 s2 : list Z) :
  List.length s1 = List.length s2 ->
  (forall i j, (i < List.length s1)%nat -> 0 <= j ->
               state_bit s1 i j = state_bit s2 i j) ->
  s1 = s2.
Proof.
  intros Hlen Hbits. apply (nth_ext _ _ 0 0 Hlen).
  intros i Hi. apply Z.bits_inj'. intros j Hj. exact (Hbits i j Hi Hj).
Qed.

Lemma in_fieldb_spec (f : bitfield) (i : nat) (j : Z) :
  in_fieldb f i j = true <-> in_field f i j.
Proof.
  unfold in_fieldb, in_field.
  rewrite !andb_true_iff, Nat.eqb_eq, Z.leb_le, Z.ltb_lt. tauto.
Qed.

(** The bits of a state after a store into a field: the bits of the field are
    those of the value, the others are kept. *)
Lemma state_bit_set_field (f : bitfield) (v : Z) (s : list Z) (i : nat) (j : Z) :
  0 <= bf_lsb f -> 0 <= bf_width f -> (bf_byte f < List.length s)%nat ->
  state_bit (set_field f v s) i j =
  if in_fieldb f i j then Z.testbit v (j - bf_lsb f) else state_bit s i j.
Proof.
  intros Hl Hw Hin. destruct (in_fieldb f i j) eqn:Hf.
  - apply in_fieldb_spec in Hf as [-> Hj].
    unfold state_bit, set_field, mask. rewrite byte_at_insert_eq by exact Hin.
    bits. replace (j - bf_lsb f <? bf_width f) with true
      by (symmetry; apply Z.ltb_lt; lia).
    rewrite !andb_true_r, andb_false_r. reflexivity.
  - apply set_field_frame; [exact Hl|exact Hw|].
    intros Hyes. apply in_fieldb_spec in Hyes. congruence.
Qed.

(** The bits of a field that is read. *)
Lemma testbit_get_field (g : bitfield) (s : list Z) (n : Z) :
  0 <= bf_lsb g -> 0 <= bf_width g -> 0 <= n ->
  Z.testbit (get_field g s) n =
  (n <? bf_width g) && state_bit s (bf_byte g) (n + bf_lsb g).
Proof.
  intros Hl Hw Hn. unfold get_field, state_bit. bits. apply andb_comm.
Qed.

Lemma overlapb_false (f g : bitfield) (i : nat) (j : Z) :
  overlapb f g = false -> in_field f i j -> in_field g i j -> False.
Proof.
  unfold overlapb, in_field. intros Hno [-> Hf] [Hbyte Hg].
  rewrite !andb_false_iff, Nat.eqb_neq, !Z.ltb_ge in Hno. lia.
Qed.

(** Reading a field after a store into a field that shares no bit with it. *)
Lemma get_field_set_field_other (f g : bitfield) (v : Z) (s : list Z) :
  0 <= bf_lsb f -> 0 <= bf_width f -> 0 <= bf_lsb g -> 0 <= bf_width g ->
  overlapb f g = false ->
  get_field g (set_field f v s) = get_field g s.
Proof.
  intros Hlf Hwf Hlg Hwg Hno. apply Z.bits_inj'. intros n Hn.
  rewrite !testbit_get_field by assumption.
  destruct (Z.ltb_spec n (bf_width g)) as [Hlt|Hge]; [|reflexivity].
  cbn [andb]. apply set_field_frame; [exact Hlf|exact Hwf|].
  intros Hin. apply (overlapb_false f g _ _ Hno Hin).
  unfold in_field. split; [reflexivity|lia].
Qed.

(** Writing into a field the value it holds changes nothing. *)
Lemma set_field_get_field (f : bitfield) (s : list Z) :
  0 <= bf_lsb f -> 0 <= bf_width f -> set_field f (get_field f s) s = s.
Proof.
  intros Hl Hw.
  destruct (Nat.lt_ge_cases (bf_byte f) (List.length s)) as [Hin|Hover];
    [|unfold set_field; apply list_insert_ge; exact Hover].
  apply state_ext; [apply length_set_field|]. intros i j _ Hj.
  rewrite state_bit_set_field by assumption.
  destruct (in_fieldb f i j) eqn:Hf; [|reflexivity].
  apply in_fieldb_spec in Hf as [-> Hrange].
  rewrite testbit_get_field by lia.
  replace (j - bf_lsb f <? bf_width f) with true
    by (symmetry; apply Z.ltb_lt; lia).
  cbn [andb]. f_equal. lia.
Qed.

(** Of two stores into one field, the second one decides. *)
Lemma set_field_set_field (f : bitfield) (v w : Z) (s : list Z) :
  0 <= bf_lsb f -> 0 <= bf_width f ->
  set_field f v (set_field f w s) = set_field f v s.
Proof.
  intros Hl Hw.
  destruct (Nat.lt_ge_cases (bf_byte f) (List.length s)) as [Hin|Hover].
  - apply state_ext; [rewrite !length_set_field; reflexivity|].
    intros i j _ Hj.
    rewrite !state_bit_set_field
      by (rewrite ?length_set_field; assumption).
    destruct (in_fieldb f i j); reflexivity.
  - unfold set_field. rewrite !(list_insert_ge s) by exact Hover.
    reflexivity.
Qed.

(** Stores into two fields that share no bit can be exchanged. *)
Lemma set_field_comm (f g : bitfield) (v w : Z) (s : list Z) :
  0 <= bf_lsb f -> 0 <= bf_width f -> 0 <= bf_lsb g -> 0 <= bf_width g ->
  (bf_byte f < List.length s)%nat -> (bf_byte g < List.length s)%nat ->
  overlapb f g = false ->
  set_field f v (set_field g w s) = set_field g w (set_field f v s).
Proof.
  intros Hlf Hwf Hlg Hwg Hinf Hing Hno.
  apply state_ext; [rewrite !length_set_field; reflexivity|].
  intros i j _ Hj.
  rewrite !state_bit_set_field by (rewrite ?length_set_field; assumption).
  destruct (in_fieldb f i j) eqn:Hf, (in_fieldb g i j) eqn:Hg; try reflexivity.
  apply in_fieldb_spec in Hf, Hg.
  destruct (overlapb_false f g i j Hno Hf Hg).
Qed.

Ltac declared :=
  unfold declared_field; change (Z.to_nat kVoltasStateLength) with 10%nat;
  cbn [bf_byte bf_lsb bf_width Power Mode Temp FanSpeed Turbo Econo Wifi Light
       Checksum]; lia.

Section SetterAlgebra.
Context `{K : VoltasConstants}.

(** A field setter is the store of [stored_value] into its field. *)
Lemma call_stores (m : method) (f : bitfield) (s : list Z) :
  written_field m = Some f -> call m s = set_field f (stored_value m) s.
Proof.
  destruct m; cbn [written_field call stored_value]; intros Hf;
    try discriminate Hf; injection Hf as <-;
    first [reflexivity | apply setMode_stores | apply setFan_stores].
Qed.

Lemma written_field_declared (m : method) (f : bitfield) :
  written_field m = Some f -> declared_field f.
Proof.
  destruct m; cbn [written_field]; intros Hf;
    try discriminate Hf; injection Hf as <-; declared.
Qed.

Lemma accessor_field_declared (g : bitfield) :
  In g accessor_fields -> declared_field g.
Proof.
  unfold accessor_fields. cbn [In]. intros Hg.
  repeat (destruct Hg as [<-|Hg]; [declared|]).
  destruct Hg.
Qed.

Lemma accessor_fields_apart (f g : bitfield) :
  In f accessor_fields -> In g accessor_fields -> f <> g ->
  overlapb f g = false.
Proof.
  unfold accessor_fields. cbn [In]. intros Hf Hg Hne.
  repeat (destruct Hf as [<-|Hf]);
    repeat (destruct Hg as [<-|Hg]);
    first [reflexivity | congruence | contradiction].
Qed.

Lemma written_field_accessor (m : method) (f : bitfield) :
  written_field m = Some f -> In f accessor_fields.
Proof.
  destruct m; cbn [written_field]; intros Hf;
    try discriminate Hf; injection Hf as <-; cbn; tauto.
Qed.

(** X1: on a 10-byte state, each boolean setter is read back by its getter:
    [getPower] after [setPower b] is [b], and likewise for Wifi, Turbo, Econo
    and Light. *)
Theorem bool_accessors_round_trip (b : bool) (s : list Z) :
  List.length s = Z.to_nat kVoltasStateLength ->
  getPower (setPower b s) = b /\ getWifi (setWifi b s) = b
  /\ getTurbo (setTurbo b s) = b /\ getEcono (setEcono b s) = b
  /\ getLight (setLight b s) = b.
Proof.
  intros Hlen. assert (Hlen' : List.length s = 10%nat) by exact Hlen.
  unfold getPower, setPower, getWifi, setWifi, getTurbo, setTurbo,
    getEcono, setEcono, getLight, setLight.
  repeat split;
    (rewrite get_set_field by (cbn; lia); destruct b; reflexivity).
Qed.

Lemma get_field_call_other (m : method) (f g : bitfield) (s : list Z) :
  written_field m = Some f -> In g accessor_fields -> g <> f ->
  get_field g (call m s) = get_field g s.
Proof.
  intros Hf Hg Hne. rewrite (call_stores m f s Hf).
  destruct (written_field_declared m f Hf) as (_ & Hlf & Hwf & _).
  destruct (accessor_field_declared g Hg) as (_ & Hlg & Hwg & _).
  apply get_field_set_field_other; try lia.
  apply accessor_fields_apart; [|exact Hg|congruence].
  apply (written_field_accessor m f Hf).
Qed.

(** X2: a field setter changes what no other getter reads: after a call that
    writes the field [f], every other field that has an accessor holds the
    value it held before, whatever the state and the argument; so the other
    getters return what they returned before. *)
Theorem setter_keeps_other_fields (m : method) (f : bitfield) (s : list Z) :
  written_field m = Some f ->
  (forall g, In g accessor_fields -> g <> f ->
             get_field g (call m s) = get_field g s)
  /\ (f <> Power -> getPower (call m s) = getPower s)
  /\ (f <> Mode -> getMode (call m s) = getMode s)
  /\ (f <> Temp -> getTemp (call m s) = getTemp s)
  /\ (f <> FanSpeed -> getFan (call m s) = getFan s)
  /\ (f <> Turbo -> getTurbo (call m s) = getTurbo s)
  /\ (f <> Econo -> getEcono (call m s) = getEcono s)
  /\ (f <> Wifi -> getWifi (call m s) = getWifi s)
  /\ (f <> Light -> getLight (call m s) = getLight s).
Proof.
  intros Hf.
  assert (H : forall g, In g accessor_fields -> g <> f ->
                        get_field g (call m s) = get_field g s)
    by (intros g Hg Hne; apply (get_field_call_other m f g s Hf Hg Hne)).
  split; [exact H|].
  unfold getPower, getMode, getTemp, getFan, getTurbo, getEcono, getWifi,
    getLight.
  repeat split; intros Hne; rewrite H by (cbn; auto 10); reflexivity.
Qed.

(** X3: of two calls of setters of the same field, only the second one
    counts: the state is the one the second call alone would give. *)
Theorem setter_last_write_wins (m1 m2 : method) (f : bitfield) (s : list Z) :
  written_field m1 = Some f -> written_field m2 = Some f ->
  call m2 (call m1 s) = call m2 s.
Proof.
  intros H1 H2. rewrite (call_stores m2 f _ H2), (call_stores m1 f _ H1),
    (call_stores m2 f _ H2).
  destruct (written_field_declared m1 f H1) as (_ & Hl & Hw & _).
  apply set_field_set_field; lia.
Qed.

(** X4: on a 10-byte state, calls of setters of two different fields can be
    made in either order. *)
Theorem setters_commute (m1 m2 : method) (f g : bitfield) (s : list Z) :
  List.length s = Z.to_nat kVoltasStateLength ->
  written_field m1 = Some f -> written_field m2 = Some g -> f <> g ->
  call m1 (call m2 s) = call m2 (call m1 s).
Proof.
  intros Hlen H1 H2 Hne.
  rewrite (call_stores m1 f _ H1), (call_stores m2 g _ H2),
    (call_stores m2 g _ H2), (call_stores m1 f _ H1).
  destruct (written_field_declared m1 f H1) as (Hbf & Hlf & Hwf & _).
  destruct (written_field_declared m2 g H2) as (Hbg & Hlg & Hwg & _).
  apply set_field_comm; try lia.
  apply accessor_fields_apart; [| |exact Hne].
  - apply (written_field_accessor m1 f H1).
  - apply (written_field_accessor m2 g H2).
Qed.

(** X5: on a 10-byte state, [on] and [off] set the power bit: [getPower] is
    true after [on] and false after [off], the later of the two decides, and
    [on] on a state whose power is on (as [off] on one whose power is off)
    leaves the state as it is. *)
Theorem on_off_power (s : list Z) :
  List.length s = Z.to_nat kVoltasStateLength ->
  getPower (on s) = true /\ getPower (off s) = false
  /\ off (on s) = off s /\ on (off s) = on s
  /\ (getPower s = true -> on s = s) /\ (getPower s = false -> off s = s).
Proof.
  intros Hlen. assert (Hlen' : List.length s = 10%nat) by exact Hlen.
  assert (Hbit : get_field Power s = 0 \/ get_field Power s = 1).
  { unfold get_field. cbn [Power bf_byte bf_lsb bf_width].
    rewrite Z.land_ones by lia. change (2 ^ 1) with 2.
    pose proof (Z.mod_pos_bound (Z.shiftr (byte_at s 2) 7) 2 ltac:(lia)) as Hm.
    lia. }
  unfold on, off, getPower, setPower. repeat split.
  - rewrite get_set_field by (cbn; lia). reflexivity.
  - rewrite get_set_field by (cbn; lia). reflexivity.
  - apply set_field_set_field; cbn; lia.
  - apply set_field_set_field; cbn; lia.
  - intros Hon. destruct Hbit as [H0|H1].
    + rewrite H0 in Hon. discriminate Hon.
    + rewrite <- H1 at 1. apply set_field_get_field; cbn; lia.
  - intros Hoff. destruct Hbit as [H0|H1].
    + rewrite <- H0 at 1. apply set_field_get_field; cbn; lia.
    + rewrite H1 in Hoff. discriminate Hoff.
Qed.
End SetterAlgebra.

(** ** The checksum as an error-detecting code *)

(** [calcChecksum] reads the first [length - 1] bytes only. *)
Lemma calcChecksum_prefix (a b : list Z) (length : Z) :
  take (Z.to_nat (length - 1)) a = take (Z.to_nat (length - 1)) b ->
  calcChecksum a length = calcChecksum b length.
Proof.
  intros Hpre. unfold calcChecksum, sumBytes. rewrite Hpre. reflexivity.
Qed.

(** The sum of a prefix after one of its bytes has been replaced. *)
Lemma sum_take_insert (l : list Z) (n i : nat) (v : Z) :
  (i < n)%nat -> (i < List.length l)%nat ->
  fold_right Z.add 0 (take n (<[i:=v]> l)) =
  fold_right Z.add 0 (take n l) - byte_at l i + v.
Proof.
  revert n i. induction l as [|b l IH]; intros n i Hin Hil; [cbn in Hil; lia|].
  destruct n as [|n]; [lia|]. destruct i as [|i]; cbn [take fold_right].
  - unfold byte_at. cbn. lia.
  - change (<[S i:=v]> (b :: l)) with (b :: <[i:=v]> l).
    cbn [take fold_right]. rewrite IH by (cbn in Hil; lia).
    unfold byte_at. cbn [nth]. lia.
Qed.

(** X6: for [length >= 1] and a buffer of at least [length] bytes, the
    checksum does not depend on the byte in the checksum position, and
    [validChecksum] accepts the buffer with the byte [c] in that position
    exactly when [c] is [calcChecksum] of the buffer: storing the computed
    checksum always gives a valid buffer, and no other byte does. *)
Theorem validChecksum_unique_byte (state : list Z) (length c : Z) :
  1 <= length -> length <= Z.of_nat (List.length state) ->
  calcChecksum (<[Z.to_nat (length - 1) := c]> state) length
    = calcChecksum state length
  /\ (validChecksum (<[Z.to_nat (length - 1) := c]> state) length = true
      <-> c = calcChecksum state length).
Proof.
  intros Hlen Hbuf.
  assert (Hsame : calcChecksum (<[Z.to_nat (length - 1) := c]> state) length
                  = calcChecksum state length).
  { apply calcChecksum_prefix. apply take_insert_ge. lia. }
  split; [exact Hsame|].
  unfold validChecksum. destruct (Z.eqb_spec length 0) as [->|_]; [lia|].
  rewrite byte_at_insert_eq by lia. rewrite Hsame. apply Z.eqb_eq.
Qed.

(** X7: a buffer of bytes that [validChecksum] accepts is rejected as soon
    as any single one of its [length] bytes, the checksum byte included, is
    replaced by a different byte. *)
Theorem validChecksum_detects_byte_error (state : list Z) (length : Z)
    (i : nat) (v : Z) :
  1 <= length -> length <= Z.of_nat (List.length state) ->
  validChecksum state length = true ->
  (Z.of_nat i < length) ->
  0 <= byte_at state i < 256 -> 0 <= v < 256 -> v <> byte_at state i ->
  validChecksum (<[i:=v]> state) length = false.
Proof.
  intros Hlen Hbuf Hvalid Hi Hold Hv Hne.
  unfold validChecksum in *.
  destruct (Z.eqb_spec length 0) as [->|_]; [lia|].
  apply Z.eqb_eq in Hvalid. apply Z.eqb_neq.
  destruct (Nat.eq_dec i (Z.to_nat (length - 1))) as [->|Hni].
  - rewrite byte_at_insert_eq by lia.
    rewrite (calcChecksum_prefix _ state) by (apply take_insert_ge; lia).
    congruence.
  - rewrite byte_at_insert_ne by exact Hni. rewrite Hvalid.
    unfold calcChecksum. destruct (Z.eqb_spec length 0) as [->|_]; [lia|].
    cbv zeta. rewrite !sumBytes_sum.
    rewrite !uint8_lnot by apply uint8_range.
    rewrite sum_take_insert by lia.
    set (S := fold_right Z.add 0 (take (Z.to_nat (length - 1)) state)).
    unfold uint8. intros Heq.
    assert (Hmod : (S + (v - byte_at state i)) mod 256 = S mod 256)
      by (replace (S + (v - byte_at state i)) with (S - byte_at state i + v)
            by lia; lia).
    rewrite <- Zplus_mod_idemp_l in Hmod.
    pose proof (Z.mod_pos_bound S 256 ltac:(lia)) as Hr.
    remember (S mod 256) as r. clear Heqr Heq.
    remember (v - byte_at state i) as d.
    assert (Hd : -256 < d < 256 /\ d <> 0) by lia.
    destruct (Z.lt_ge_cases (r + d) 0) as [Hneg|Hpos].
    + replace (r + d) with ((r + d + 256) + (-1) * 256) in Hmod by lia.
      rewrite Z_mod_plus_full, Z.mod_small in Hmod by lia. lia.
    + destruct (Z.lt_ge_cases (r + d) 256) as [Hlt|Hge].
      * rewrite Z.mod_small in Hmod by lia. lia.
      * replace (r + d) with ((r + d - 256) + 1 * 256) in Hmod by lia.
        rewrite Z_mod_plus_full, Z.mod_small in Hmod by lia. lia.
Qed.

(** ** What [getRaw] does to the state *)

Lemma getRaw_as_store (s : list Z) :
  getRaw s = set_field Checksum (calcChecksum s (kVoltasStateLength - 1)) s.
Proof. reflexivity. Qed.

Lemma calcChecksum_getRaw (s : list Z) :
  calcChecksum (getRaw s) (kVoltasStateLength - 1)
  = calcChecksum s (kVoltasStateLength - 1).
Proof.
  apply calcChecksum_prefix. unfold getRaw, checksum, set_field.
  apply take_insert_ge. apply Nat.leb_le. reflexivity.
Qed.

Lemma getRaw_getRaw (s : list Z) : getRaw (getRaw s) = getRaw s.
Proof.
  rewrite (getRaw_as_store (getRaw s)), calcChecksum_getRaw.
  rewrite (getRaw_as_store s) at 1.
  apply set_field_set_field; cbn; lia.
Qed.

(** X8: [getRaw] is idempotent, it keeps the length of the state, and it
    changes no byte other than byte 9, whatever the state. *)
Theorem getRaw_idempotent (s : list Z) :
  getRaw (getRaw s) = getRaw s
  /\ List.length (getRaw s) = List.length s
  /\ (forall i, i <> 9%nat -> byte_at (getRaw s) i = byte_at s i).
Proof.
  split; [|split].
  - apply getRaw_getRaw.
  - apply length_set_field.
  - intros i Hi. unfold getRaw, checksum, set_field.
    apply byte_at_insert_ne. cbn. congruence.
Qed.

Section GetRawFacts.
Context `{K : VoltasConstants}.

Lemma get_field_getRaw (g : bitfield) (s : list Z) :
  In g accessor_fields -> get_field g (getRaw s) = get_field g s.
Proof.
  intros Hg. rewrite getRaw_as_store.
  destruct (accessor_field_declared g Hg) as (_ & Hlg & Hwg & _).
  apply get_field_set_field_other; cbn [Checksum bf_lsb bf_width]; try lia.
  unfold accessor_fields in Hg. cbn [In] in Hg.
  repeat (destruct Hg as [<-|Hg]; [reflexivity|]). destruct Hg.
Qed.

(** X9: recomputing the checksum does not change what the accessors report:
    every getter, and with them the summary of [toCommon], gives the same
    result on [getRaw s] as on [s]. *)
Theorem getters_ignore_checksum (s : list Z) :
  getPower (getRaw s) = getPower s /\ getMode (getRaw s) = getMode s
  /\ getTemp (getRaw s) = getTemp s /\ getFan (getRaw s) = getFan s
  /\ getTurbo (getRaw s) = getTurbo s /\ getEcono (getRaw s) = getEcono s
  /\ getWifi (getRaw s) = getWifi s /\ getLight (getRaw s) = getLight s
  /\ toCommon (getRaw s) = toCommon s.
Proof.
  assert (H : forall g, In g accessor_fields ->
                        get_field g (getRaw s) = get_field g s)
    by (intros g Hg; apply get_field_getRaw; exact Hg).
  unfold toCommon, getPower, getMode, getTemp, getFan, getTurbo, getEcono,
    getWifi, getLight.
  rewrite (H Power), (H Mode), (H Temp), (H FanSpeed), (H Turbo), (H Econo),
    (H Wifi), (H Light) by (cbn; tauto).
  repeat split.
Qed.
End GetRawFacts.

(** X10: for a buffer [X] of exactly 10 bytes, [setRaw X] followed by
    [getRaw] gives [X] back exactly when byte 9 of [X] is the complement of
    the sum of its bytes 0 to 7, that is [calcChecksum X 9]. *)
Theorem setRaw_getRaw_round_trip (X : list Z) :
  List.length X = Z.to_nat kVoltasStateLength -> bytes X ->
  (getRaw (setRaw X) = X
   <-> byte_at X 9 = calcChecksum X (kVoltasStateLength - 1)).
Proof.
  intros Hlen Hbytes.
  assert (Hraw : setRaw X = X)
    by (unfold setRaw; apply firstn_all2; rewrite Hlen; lia).
  rewrite Hraw.
  destruct (getRaw_valid_iff_byte8_zero X (conj Hlen Hbytes)) as [Hget _].
  assert (Hc : calcChecksum X (kVoltasStateLength - 1)
               = 255 - fold_right Z.add 0 (take 8 X) mod 256).
  { unfold calcChecksum. change (kVoltasStateLength - 1 =? 0) with false.
    cbv zeta. rewrite sumBytes_sum. apply uint8_lnot, Z.mod_pos_bound. lia. }
  rewrite Hget, Hc. change (Z.to_nat kVoltasStateLength) with 10%nat in Hlen.
  split.
  - intros Heq. rewrite <- Heq at 1. apply byte_at_insert_eq. lia.
  - intros Heq. apply list_insert_id. rewrite <- Heq.
    unfold byte_at. rewrite nth_lookup.
    destruct (X !! 9%nat) as [b|] eqn:Hb; [reflexivity|].
    apply lookup_ge_None in Hb. lia.
Qed.

(** ** Reception outside strict mode, and what a rejection leaves behind *)

Section DecodeMore.
Variable kDefaultMessageGap : Z.
Variable matchGeneric :
  list Z -> list Z -> Z -> Z -> Z -> Z -> Z -> Z -> Z -> Z -> Z -> Z -> bool ->
  Z * list Z.

Local Abbreviation decode := (decodeVoltas kDefaultMessageGap matchGeneric).
Local Abbreviation matched := (match_data kDefaultMessageGap matchGeneric).

(** X11: without strict mode [decodeVoltas] accepts exactly when the pulse
    engine matches, whatever the bit count and the checksum; it then records
    [VOLTAS], the bit count it was given and the decoded bytes. In either
    mode the capture ([rawbuf], [rawlen]) is left as it was. *)
Theorem decodeVoltas_lax (results : decode_results) (offset nbits : Z)
    (strict : bool) :
  let out := decode results offset nbits false in
  let used := fst (matched results offset nbits) in
  let decoded := snd (matched results offset nbits) in
  (fst out = true <-> used <> 0)
  /\ (fst out = true ->
        decode_type (snd out) = VOLTAS /\ bits (snd out) = nbits
        /\ state (snd out) = decoded)
  /\ rawbuf (snd (decode results offset nbits strict)) = rawbuf results
  /\ rawlen (snd (decode results offset nbits strict)) = rawlen results.
Proof.
  cbv zeta. unfold decodeVoltas.
  destruct (matched results offset nbits) as [used decoded].
  cbn [andb fst snd state].
  split; [|split; [|split]].
  - destruct (Z.eqb_spec used 0) as [->|Hused]; cbn [fst].
    + split; [discriminate|congruence].
    + split; [intros _; exact Hused|reflexivity].
  - destruct (Z.eqb_spec used 0) as [->|Hused]; cbn [fst snd];
      [discriminate|]. intros _. repeat split.
  - destruct (strict && negb (nbits =? kVoltasBits)); [reflexivity|].
    destruct (used =? 0); [reflexivity|].
    destruct (strict && negb (validChecksum decoded (nbits / 8)));
      reflexivity.
  - destruct (strict && negb (nbits =? kVoltasBits)); [reflexivity|].
    destruct (used =? 0); [reflexivity|].
    destruct (strict && negb (validChecksum decoded (nbits / 8)));
      reflexivity.
Qed.

(** X12: strict mode only adds rejections: a capture that [decodeVoltas]
    accepts in strict mode is accepted without it, with the same result. *)
Theorem decodeVoltas_strict_implies_lax (results : decode_results)
    (offset nbits : Z) :
  fst (decode results offset nbits true) = true ->
  decode results offset nbits false = decode results offset nbits true.
Proof.
  unfold decodeVoltas. cbn [andb].
  destruct (negb (nbits =? kVoltasBits)); [discriminate|].
  destruct (matched results offset nbits) as [used decoded].
  destruct (used =? 0); [reflexivity|].
  cbn [state]. destruct (negb (validChecksum decoded (nbits / 8)));
    [discriminate|reflexivity].
Qed.

(** X13: what a strict rejection leaves in [*results]. With a bit count
    other than 80 the engine is not run and [*results] is untouched. With 80
    bits and a rejection, by the engine or by the checksum, the bytes the
    engine wrote stay in [results->state]; only [decode_type] and [bits]
    keep their previous values. *)
Theorem decodeVoltas_rejection_state (results : decode_results)
    (offset nbits : Z) :
  let out := decode results offset nbits true in
  (nbits <> kVoltasBits -> out = (false, results))
  /\ (nbits = kVoltasBits -> fst out = false ->
      state (snd out) = snd (matched results offset nbits)
      /\ decode_type (snd out) = decode_type results
      /\ bits (snd out) = bits results).
Proof.
  cbv zeta. unfold decodeVoltas. cbn [andb]. split.
  - intros Hne. apply Z.eqb_neq in Hne. rewrite Hne. reflexivity.
  - intros ->. rewrite Z.eqb_refl. cbn [negb].
    destruct (matched results offset kVoltasBits) as [used decoded].
    cbn [snd state]. destruct (used =? 0); [intros _; repeat split|].
    destruct (negb (validChecksum decoded (kVoltasBits / 8)));
      [intros _; repeat split|discriminate].
Qed.
End DecodeMore.

(** ** Transmission *)

Section SendFacts.
Variable signal : Type.
Variables kDefaultMessageGap kDutyDefault : Z.
Variable sendGeneric :
  Z -> Z -> Z -> Z -> Z -> Z -> Z -> Z -> list Z -> Z -> Z -> bool -> Z -> Z ->
  signal.

Local Abbreviation emit := (send signal kDefaultMessageGap kDutyDefault sendGeneric).

End SendFacts.

(** ** The validated fields *)

Section ValidatedFacts.
Context `{K : VoltasConstants}.

Lemma fan_codes_distinct :
  NoDup fan_codes ->
  kVoltasFanLow <> kVoltasFanMed /\ kVoltasFanLow <> kVoltasFanHigh
  /\ kVoltasFanMed <> kVoltasFanHigh
  /\ kVoltasFanAuto <> kVoltasFanLow /\ kVoltasFanAuto <> kVoltasFanMed
  /\ kVoltasFanAuto <> kVoltasFanHigh.
Proof.
  unfold fan_codes. intros Hd.
  repeat match goal with
         | H : NoDup (_ :: _) |- _ => apply NoDup_cons in H as [? H]
         end.
  repeat match goal with
         | H : _ ∉ _ :: _ |- _ => apply not_elem_of_cons in H as [? H]
         end.
  repeat split; congruence.
Qed.

Lemma convertFan_code (speed : fanspeed_t) : In (convertFan speed) fan_codes.
Proof. destruct speed; cbn; tauto. Qed.

Lemma getTemp_setTemp (t : Z) (s : list Z) :
  constants_fit -> List.length s = Z.to_nat kVoltasStateLength ->
  getTemp (setTemp t s) = Z.min kVoltasMaxTemp (Z.max kVoltasMinTemp t).
Proof.
  intros (Hmin & Hle & Hfit & Hmax & _) Hlen.
  assert (Hlen' : List.length s = 10%nat) by exact Hlen.
  unfold getTemp, setTemp. cbv zeta.
  rewrite get_set_field by (cbn [Temp bf_byte bf_lsb bf_width]; lia).
  cbn [Temp bf_width]. change (2 ^ 4) with 16.
  rewrite Z.mod_small by lia. rewrite uint8_small by lia. lia.
Qed.

Lemma getMode_setMode_code (m : Z) (s : list Z) :
  constants_fit -> List.length s = Z.to_nat kVoltasStateLength ->
  getMode (setMode m s) = (if is_mode m then m else kVoltasCool)
  /\ In (getMode (setMode m s)) mode_codes.
Proof.
  intros (_ & _ & _ & _ & Hmodes & _) Hlen.
  rewrite List.Forall_forall in Hmodes.
  assert (Hin : In (if is_mode m then m else kVoltasCool) mode_codes).
  { destruct (is_mode m) eqn:Hm; [apply is_mode_In; exact Hm|cbn; tauto]. }
  rewrite getMode_setMode by exact Hlen.
  rewrite Z.mod_small by (apply Hmodes, Hin). split; [reflexivity|exact Hin].
Qed.

Lemma getFan_setFan_code (f : Z) (s : list Z) :
  constants_fit -> List.length s = Z.to_nat kVoltasStateLength ->
  getFan (setFan f s) = (if is_fan f then f else kVoltasFanAuto)
  /\ In (getFan (setFan f s)) fan_codes.
Proof.
  intros (_ & _ & _ & _ & _ & Hfans) Hlen.
  rewrite List.Forall_forall in Hfans.
  assert (Hin : In (if is_fan f then f else kVoltasFanAuto) fan_codes).
  { destruct (is_fan f) eqn:Hf; [apply is_fan_In; exact Hf|cbn; tauto]. }
  rewrite getFan_setFan by exact Hlen.
  rewrite Z.mod_small by (apply Hfans, Hin). split; [reflexivity|exact Hin].
Qed.

(** X15: an abstract fan speed sent through the state comes back from
    [toCommon] as itself, except that Low comes back as Min and High as Max:
    with pairwise distinct fan codes that fit the field, on a 10-byte state,
    the fan speed of [toCommon] after [setFan (convertFan speed)] is Auto,
    Min, Medium, Max for Auto, Min, Medium, Max, and Min for Low, Max for
    High. *)
Theorem fan_speed_through_state (speed : fanspeed_t) (s : list Z) :
  constants_fit -> NoDup fan_codes ->
  List.length s = Z.to_nat kVoltasStateLength ->
  fanspeed (toCommon (setFan (convertFan speed) s)) =
  Some match speed with
       | kLow => kMin
       | kHigh => kMax
       | other => other
       end.
Proof.
  intros Hfit Hd Hlen.
  change (fanspeed (toCommon (setFan (convertFan speed) s)))
    with (Some (toCommonFanSpeed (getFan (setFan (convertFan speed) s)))).
  destruct (getFan_setFan_code (convertFan speed) s Hfit Hlen) as [-> _].
  rewrite (proj2 (is_fan_In _) (convertFan_code speed)).
  destruct (fan_codes_distinct Hd) as (Hlm & Hlh & Hmh & Hal & Ham & Hah).
  f_equal. unfold toCommonFanSpeed.
  destruct speed; cbn [convertFan];
    repeat match goal with
           | |- context [?a =? ?a] => rewrite (Z.eqb_refl a)
           | |- context [?a =? ?b] =>
               rewrite (proj2 (Z.eqb_neq a b)) by congruence
           end; reflexivity.
Qed.

(** X16: the validated fields form an invariant of the field setters. With
    constants that fit, on a 10-byte state: once Mode and FanSpeed hold
    accepted codes and the temperature lies in range, every field setter
    keeps it so; calling [setMode], [setFan] and [setTemp] establishes it
    from any state; and the state of a new object has it only if 0 is an
    accepted mode code and an accepted fan code. *)
Theorem validated_invariant (s : list Z) :
  constants_fit -> List.length s = Z.to_nat kVoltasStateLength ->
  (forall m f, written_field m = Some f -> validated s -> validated (call m s))
  /\ (forall mode fan temp, validated (setTemp temp (setFan fan (setMode mode s))))
  /\ (validated stateReset -> In 0 mode_codes /\ In 0 fan_codes).
Proof.
  intros Hfit Hlen.
  assert (Hstep : forall s' m f, List.length s' = Z.to_nat kVoltasStateLength ->
            written_field m = Some f ->
            (f = Mode \/ In (getMode s') mode_codes) ->
            (f = FanSpeed \/ In (getFan s') fan_codes) ->
            (f = Temp \/ kVoltasMinTemp <= getTemp s' <= kVoltasMaxTemp) ->
            validated (call m s')).
  { intros s' m f Hlen' Hf Hmode Hfan Htemp.
    pose proof (get_field_call_other m f) as Hother.
    unfold validated. split; [|split].
    - destruct m; cbn [written_field] in Hf; try discriminate Hf;
        injection Hf as <-;
        try (apply getMode_setMode_code; assumption);
        (destruct Hmode as [Hmode|Hmode]; [discriminate Hmode|]);
        unfold getMode in *;
        rewrite Hother by (first [reflexivity | discriminate | cbn; tauto]);
        exact Hmode.
    - destruct m; cbn [written_field] in Hf; try discriminate Hf;
        injection Hf as <-;
        try (apply getFan_setFan_code; assumption);
        (destruct Hfan as [Hfan|Hfan]; [discriminate Hfan|]);
        unfold getFan in *;
        rewrite Hother by (first [reflexivity | discriminate | cbn; tauto]);
        exact Hfan.
    - destruct m; cbn [written_field] in Hf; try discriminate Hf;
        injection Hf as <-;
        try (cbn [call]; rewrite getTemp_setTemp by assumption;
             destruct Hfit as (? & ? & ? & ? & _); lia);
        (destruct Htemp as [Htemp|Htemp]; [discriminate Htemp|]);
        unfold getTemp in *;
        rewrite Hother by (first [reflexivity | discriminate | cbn; tauto]);
        exact Htemp. }
  split; [|split].
  - intros m f Hf (Hmode & Hfan & Htemp). apply (Hstep s m f); auto.
  - intros mode fan temp.
    assert (Hl1 : List.length (setMode mode s) = Z.to_nat kVoltasStateLength)
      by (rewrite setMode_stores, length_set_field; exact Hlen).
    assert (Hl2 : List.length (setFan fan (setMode mode s))
                  = Z.to_nat kVoltasStateLength)
      by (rewrite setFan_stores, length_set_field; exact Hl1).
    apply (Hstep _ (m_setTemp temp) Temp Hl2 eq_refl);
      [right|right|left; reflexivity].
    + unfold getMode.
      change (setFan fan (setMode mode s))
        with (call (m_setFan fan) (setMode mode s)).
      rewrite (get_field_call_other (m_setFan fan) FanSpeed Mode)
        by (first [reflexivity | discriminate | cbn; tauto]).
      apply getMode_setMode_code; assumption.
    + apply getFan_setFan_code; assumption.
  - intros (Hmode & Hfan & _). split; [exact Hmode|exact Hfan].
Qed.
End ValidatedFacts.

Lemma get_field_range (f : bitfield) (s : list Z) :
  0 <= bf_width f -> 0 <= get_field f s < 2 ^ bf_width f.
Proof.
  intros Hw. unfold get_field. rewrite Z.land_ones by exact Hw.
  apply Z.mod_pos_bound. apply Z.pow_pos_nonneg; lia.
Qed.

Section WriteBack.
Context `{K : VoltasConstants}.

(** X17: the validated states are the ones on which writing back what the
    getters return changes nothing. With constants that fit, on a 10-byte
    state: Mode and FanSpeed hold accepted codes and the temperature lies in
    range exactly when [setMode (getMode s)], [setFan (getFan s)] and
    [setTemp (getTemp s)] each leave the state as it is. *)
Theorem validated_iff_write_back (s : list Z) :
  constants_fit -> List.length s = Z.to_nat kVoltasStateLength ->
  (validated s <->
   setMode (getMode s) s = s /\ setFan (getFan s) s = s
   /\ setTemp (getTemp s) s = s).
Proof.
  intros Hfit Hlen. unfold validated. split.
  - intros (Hmode & Hfan & Htemp). split; [|split].
    + rewrite setMode_stores, (proj2 (is_mode_In _) Hmode).
      apply set_field_get_field; cbn; lia.
    + rewrite setFan_stores, (proj2 (is_fan_In _) Hfan).
      apply set_field_get_field; cbn; lia.
    + destruct Hfit as (Hmin & Hle & Hroom & Hmax & _).
      pose proof (get_field_range Temp s ltac:(cbn; lia)) as Hnib.
      cbn [Temp bf_width] in Hnib. change (2 ^ 4) with 16 in Hnib.
      fold Temp in Hnib.
      assert (Hget : getTemp s = get_field Temp s + kVoltasMinTemp).
      { unfold getTemp in *. unfold uint8 in *.
        destruct (Z.lt_ge_cases (get_field Temp s + kVoltasMinTemp) 256)
          as [Hlt|Hge]; [apply Z.mod_small; lia|].
        replace (get_field Temp s + kVoltasMinTemp)
          with ((get_field Temp s + kVoltasMinTemp - 256) + 1 * 256)
          in Htemp by lia.
        rewrite Z_mod_plus_full, Z.mod_small in Htemp by lia. lia. }
      unfold setTemp. cbv zeta.
      replace (Z.min kVoltasMaxTemp (Z.max kVoltasMinTemp (getTemp s))
               - kVoltasMinTemp) with (get_field Temp s) by lia.
      apply set_field_get_field; cbn; lia.
  - intros (Hmode & Hfan & Htemp). split; [|split].
    + rewrite <- Hmode at 1. apply getMode_setMode_code; assumption.
    + rewrite <- Hfan at 1. apply getFan_setFan_code; assumption.
    + rewrite <- Htemp at 1 2. rewrite getTemp_setTemp by assumption.
      destruct Hfit as (Hmin & Hle & Hroom & Hmax & _). lia.
Qed.

(** X18: whatever calls are made on an object after its construction
    ([stateReset], [setRaw] with at least 10 bytes, any field setter with any
    argument), its state consists of exactly 10 values that are all bytes. *)
Theorem reachable_states_are_10_bytes (ms : list method) :
  Forall valid_call ms -> well_formed (calls ms stateReset).
Proof.
  intros Hms. apply well_formed_calls; [exact Hms|].
  apply well_formed_stateReset.
Qed.
End WriteBack.

Section Summary.
Context `{K : VoltasConstants}.

Ltac field_side Hlen :=
  first [ reflexivity
        | rewrite ?length_set_field, Hlen;
          cbn [bf_byte bf_lsb bf_width Power Mode Temp FanSpeed Turbo Econo
               Wifi Light]; lia
        | cbn [bf_byte bf_lsb bf_width Power Mode Temp FanSpeed Turbo Econo
               Wifi Light]; lia ].

(** X20: the summary reports what the setters were given. With constants
    that fit, on a 10-byte state, after [setPower p], [setTemp t],
    [setFan f], [setTurbo tb], [setEcono e] and [setLight l], [toCommon]
    returns power [p], the temperature [t] clamped to
    [kVoltasMinTemp .. kVoltasMaxTemp], the abstract speed of the accepted
    fan code, and turbo [tb], econo [e], light [l]. *)
Theorem toCommon_after_setters (p tb e l : bool) (t f : Z) (s : list Z) :
  constants_fit -> List.length s = Z.to_nat kVoltasStateLength ->
  let s' := setLight l (setEcono e (setTurbo tb
              (setFan f (setTemp t (setPower p s))))) in
  power (toCommon s') = Some p
  /\ degrees (toCommon s') = Some (Z.min kVoltasMaxTemp (Z.max kVoltasMinTemp t))
  /\ fanspeed (toCommon s')
     = Some (toCommonFanSpeed (if is_fan f then f else kVoltasFanAuto))
  /\ turbo (toCommon s') = Some tb
  /\ econo (toCommon s') = Some e
  /\ light (toCommon s') = Some l.
Proof.
  intros Hfit Hlen s'.
  assert (Hlen' : List.length s = 10%nat) by exact Hlen.
  destruct Hfit as (Hmin & Hle & Hroom & Hmax & _ & Hfans).
  rewrite List.Forall_forall in Hfans.
  assert (Hcode : 0 <= (if is_fan f then f else kVoltasFanAuto) < 8).
  { apply Hfans. destruct (is_fan f) eqn:Hf;
      [apply is_fan_In; exact Hf|cbn; tauto]. }
  change (power (toCommon s')) with (Some (getPower s')).
  change (degrees (toCommon s')) with (Some (getTemp s')).
  change (fanspeed (toCommon s')) with (Some (toCommonFanSpeed (getFan s'))).
  change (turbo (toCommon s')) with (Some (getTurbo s')).
  change (econo (toCommon s')) with (Some (getEcono s')).
  change (light (toCommon s')) with (Some (getLight s')).
  unfold s', setLight, setEcono, setTurbo, setTemp, setPower. cbv zeta.
  rewrite setFan_stores.
  unfold getPower, getTemp, getFan, getTurbo, getEcono, getLight.
  repeat split; f_equal;
    repeat (rewrite get_field_set_field_other by field_side Hlen');
    rewrite get_set_field by field_side Hlen'.
  - destruct p; reflexivity.
  - cbn [Temp bf_width]. change (2 ^ 4) with 16.
    rewrite Z.mod_small by lia. rewrite uint8_small by lia. lia.
  - f_equal. cbn [FanSpeed bf_width]. change (2 ^ 3) with 8.
    apply Z.mod_small. exact Hcode.
  - destruct tb; reflexivity.
  - destruct e; reflexivity.
  - destruct l; reflexivity.
Qed.
End Summary.

(** ** Concrete runs *)

Lemma sample_constants_fit : constants_fit (K := sample_constants).
Proof.
  unfold constants_fit, mode_codes, fan_codes.
  cbv [sample_constants kVoltasMinTemp kVoltasMaxTemp kVoltasFan kVoltasHeat
       kVoltasDry kVoltasCool kVoltasFanLow kVoltasFanMed kVoltasFanHigh
       kVoltasFanAuto].
  repeat split; try lia; repeat constructor; lia.
Qed.

Lemma sample_fan_codes_distinct : NoDup (fan_codes (K := sample_constants)).
Proof.
  unfold fan_codes.
  cbv [sample_constants kVoltasFanLow kVoltasFanMed kVoltasFanHigh kVoltasFanAuto].
  repeat (apply NoDup_cons_2;
          [rewrite ?not_elem_of_cons; repeat split; try lia; apply not_elem_of_nil|]).
  apply NoDup_nil_2.
Qed.

Lemma fixture_bytes : bytes fixture.
Proof. unfold bytes, fixture. repeat constructor; lia. Qed.

Lemma bool_accessors_round_trip_witness :
  getLight (setLight true fixture) = true.
Proof.
  refine (proj2 (proj2 (proj2 (proj2
    (bool_accessors_round_trip true fixture _))))).
  reflexivity.
Defined.

Lemma setter_keeps_other_fields_witness :
  getTemp (K := sample_constants)
          (call (K := sample_constants) (m_setMode 0xFF) fixture)
  = getTemp (K := sample_constants) fixture.
Proof.
  refine (proj1 (proj2 (proj2 (proj2
    (setter_keeps_other_fields (K := sample_constants) (m_setMode 0xFF) Mode
       fixture _)))) _).
  - reflexivity.
  - discriminate.
Defined.

Lemma setter_last_write_wins_witness :
  call (K := sample_constants) (m_setTemp 20)
       (call (K := sample_constants) (m_setTemp 29) fixture)
  = call (K := sample_constants) (m_setTemp 20) fixture.
Proof.
  apply (setter_last_write_wins (K := sample_constants)
           (m_setTemp 29) (m_setTemp 20) Temp fixture); reflexivity.
Defined.

Lemma setters_commute_witness :
  call (K := sample_constants) (m_setTemp 20)
       (call (K := sample_constants) (m_setEcono true) fixture)
  = call (K := sample_constants) (m_setEcono true)
         (call (K := sample_constants) (m_setTemp 20) fixture).
Proof.
  apply (setters_commute (K := sample_constants)
           (m_setTemp 20) (m_setEcono true) Temp Econo fixture);
    first [reflexivity | discriminate].
Defined.

Lemma on_off_power_witness : off (on fixture) = off fixture.
Proof.
  refine (proj1 (proj2 (proj2 (on_off_power fixture _)))).
  reflexivity.
Defined.

Lemma validChecksum_unique_byte_witness :
  validChecksum (<[9%nat := 0x40]> fixture) 10 = true.
Proof.
  apply (proj2 (validChecksum_unique_byte fixture 10 0x40 ltac:(lia)
                  ltac:(cbn; lia))).
  reflexivity.
Defined.

Lemma validChecksum_detects_byte_error_witness :
  validChecksum (<[3%nat := 0x1B]> fixture) 10 = false.
Proof.
  apply (validChecksum_detects_byte_error fixture 10 3 0x1B).
  - lia.
  - cbn. lia.
  - reflexivity.
  - lia.
  - cbn. lia.
  - lia.
  - cbn. lia.
Defined.

Lemma setRaw_getRaw_round_trip_witness : getRaw (setRaw fixture) = fixture.
Proof.
  apply (proj2 (setRaw_getRaw_round_trip fixture eq_refl fixture_bytes)).
  reflexivity.
Defined.

Lemma decodeVoltas_strict_implies_lax_witness :
  decodeVoltas 50000 sample_matchGeneric
    {| rawbuf := replicate 163 0; rawlen := 163;
       state := []; decode_type := decode_type_other (-1); bits := 0 |}
    1 80 false
  = decodeVoltas 50000 sample_matchGeneric
      {| rawbuf := replicate 163 0; rawlen := 163;
         state := []; decode_type := decode_type_other (-1); bits := 0 |}
      1 80 true.
Proof.
  apply (decodeVoltas_strict_implies_lax 50000 sample_matchGeneric).
  reflexivity.
Defined.

Lemma fan_speed_through_state_witness :
  fanspeed (toCommon (K := sample_constants)
              (setFan (K := sample_constants)
                      (convertFan (K := sample_constants) kLow) fixture))
  = Some kMin.
Proof.
  apply (fan_speed_through_state (K := sample_constants) kLow fixture
           sample_constants_fit sample_fan_codes_distinct eq_refl).
Defined.

Lemma validated_invariant_witness :
  validated (K := sample_constants)
    (setTemp (K := sample_constants) 99
       (setFan (K := sample_constants) 0
          (setMode (K := sample_constants) 0 stateReset))).
Proof.
  apply (proj1 (proj2 (validated_invariant (K := sample_constants) stateReset
                         sample_constants_fit eq_refl))).
Defined.

Lemma validated_iff_write_back_witness :
  setTemp (K := sample_constants) (getTemp (K := sample_constants) fixture)
          fixture = fixture.
Proof.
  refine (proj2 (proj2 (proj1
    (validated_iff_write_back (K := sample_constants) fixture
       sample_constants_fit eq_refl) _))).
  unfold validated, mode_codes, fan_codes.
  change (getMode fixture) with 8. change (getFan fixture) with 1.
  change (getTemp (K := sample_constants) fixture) with 26.
  cbv [sample_constants kVoltasMinTemp kVoltasMaxTemp kVoltasFan kVoltasHeat
       kVoltasDry kVoltasCool kVoltasFanLow kVoltasFanMed kVoltasFanHigh
       kVoltasFanAuto].
  cbn [In]. lia.
Defined.

Lemma reachable_states_are_10_bytes_witness :
  well_formed (calls (K := sample_constants)
                 [m_setRaw fixture; m_setTemp 99; m_setLight true] stateReset).
Proof.
  apply (reachable_states_are_10_bytes (K := sample_constants)).
  apply Forall_cons_2;
    [split; [apply Nat.leb_le; reflexivity|exact fixture_bytes]|].
  repeat constructor.
Defined.

Lemma getRaw_valid_after_calls_witness :
  validChecksum
    (getRaw (calls (K := sample_constants)
               [m_setRaw fixture; m_setLight true] stateReset))
    kVoltasStateLength = false.
Proof.
  refine (eq_trans
    (getRaw_valid_after_calls (K := sample_constants)
       [m_setRaw fixture; m_setLight true] _) _).
  - apply Forall_cons_2;
    [split; [apply Nat.leb_le; reflexivity|exact fixture_bytes]|].
    repeat constructor.
  - reflexivity.
Defined.

Lemma toCommon_after_setters_witness :
  degrees (toCommon (K := sample_constants)
    (setLight true (setEcono false (setTurbo true
       (setFan (K := sample_constants) 9
          (setTemp (K := sample_constants) 99 (setPower true fixture)))))))
  = Some 30.
Proof.
  apply (proj1 (proj2
    (toCommon_after_setters (K := sample_constants) true true false true 99 9
       fixture sample_constants_fit eq_refl))).
Defined.
